(** * etopo1: resampling of a global relief raster over a KML quad

    A shallow embedding of [sample.py] and [export.py].

    Numbers.  The program computes with Python floats.  The modules
    [sample_py] and [export_py] compute with exact rationals ([Q]): what
    is proved of them is a statement of exact arithmetic (no rounding, no
    nan, no inf).  The module [binary64] computes the coordinate mapping
    and the sampled coordinates of [sample.py] with IEEE 754 binary64
    numbers, as Python and numpy do; it is used where rounding decides
    what the program does.  Integer indices ([math.floor], [math.ceil],
    [range], array shapes) are [Z] in both.

    Exceptions.  A Python call that may raise returns a [result]; the
    constructor [Raise] carries the exception class. *)

From Stdlib Require Import ZArith QArith Qround List Bool String Ascii Lia Lqa.
From Stdlib Require PrimFloat FloatOps SpecFloat Uint63.
Import ListNotations.

Open Scope Z_scope.
Open Scope Q_scope.

(** ** Exceptions *)

Inductive exn : Set :=
| ValueError
| IndexError
| ZeroDivisionError
| InsufficientSamplesError
| OverflowError.

Inductive result (A : Type) : Type :=
| Ok (a : A)
| Raise (e : exn).

Arguments Ok {A} a.
Arguments Raise {A} e.

Definition bind {A B} (r : result A) (k : A -> result B) : result B :=
  match r with
  | Ok a => k a
  | Raise e => Raise e
  end.

Notation "x <- c ;; k" := (bind c (fun x => k))
  (at level 61, c at next level, right associativity).
Notation "' pat <- c ;; k" := (bind c (fun x => match x with pat => k end))
  (at level 61, pat pattern, c at next level, right associativity).

Definition is_ok {A} (r : result A) : bool :=
  match r with Ok _ => true | Raise _ => false end.

(** [[f(x) for x in l]]: the first element on which [f] raises decides. *)
Fixpoint mapM {A B} (f : A -> result B) (l : list A) : result (list B) :=
  match l with
  | [] => Ok []
  | a :: l' => b <- f a ;; bs <- mapM f l' ;; Ok (b :: bs)
  end.

(** ** Python and numpy primitives *)

Definition len {A} (l : list A) : Z := Z.of_nat (List.length l).

(** [l[k]]: a negative [k] counts from the end, anything outside
    [-len(l) <= k < len(l)] raises IndexError. *)
Definition getitem {A} (l : list A) (k : Z) : result A :=
  let n := len l in
  if ((- n <=? k) && (k <? n))%Z then
    match nth_error l (Z.to_nat (if (k <? 0)%Z then k + n else k)) with
    | Some a => Ok a
    | None => Raise IndexError
    end
  else Raise IndexError.

(** [x / y] on floats. *)
Definition truediv (x y : Q) : result Q :=
  if Qeq_bool y 0 then Raise ZeroDivisionError else Ok (x / y).

Definition Qltb (x y : Q) : bool := negb (Qle_bool y x).

(** [min(l)] and [max(l)]: the first extremal element; ValueError on an
    empty sequence. *)
Definition py_min (l : list Q) : result Q :=
  match l with
  | [] => Raise ValueError
  | x :: r => Ok (fold_left (fun m y => if Qltb y m then y else m) r x)
  end.

Definition py_max (l : list Q) : result Q :=
  match l with
  | [] => Raise ValueError
  | x :: r => Ok (fold_left (fun m y => if Qltb m y then y else m) r x)
  end.

(** [range(a, b)] with [count] elements left to produce. *)
Fixpoint range_from (a : Z) (count : nat) : list Z :=
  match count with
  | O => []
  | S c => a :: range_from (a + 1) c
  end.

Definition range (a b : Z) : list Z := range_from a (Z.to_nat (b - a)).

(** [numpy.arange(start, stop, step)]: [ceil((stop - start) / step)]
    elements [start + k * step]; none when that count is not positive.
    The step [main] passes is [1.0 / ppd], which is never 0. *)
Definition arange (start stop step : Q) : list Q :=
  map (fun k => start + inject_Z (Z.of_nat k) * step)
      (seq 0 (Z.to_nat (Qceiling ((stop - start) / step)))).

(** A 2-D array as the list of its rows. *)
Definition ndarray : Type := list (list Q).

(** [a.shape] of a 2-D array. *)
Definition shape (a : ndarray) : Z * Z := (len a, len (hd [] a)).

(** Every row of [a] has [I] entries and there are [J] rows. *)
Definition has_shape (J I : Z) (a : ndarray) : Prop :=
  len a = J /\ Forall (fun row => len row = I) a.

(** [numpy.take(a, indices, axis)] for [axis] 0 and 1, in the default mode
    "raise": an index outside [-n, n) raises IndexError, a negative one
    inside it wraps around.  Along axis 1 the indices are looked up row by
    row. *)
Definition take (a : ndarray) (indices : list Z) (axis : Z) : result ndarray :=
  if (axis =? 0)%Z then mapM (getitem a) indices
  else mapM (fun row => mapM (getitem row) indices) a.

(** ** Strings *)

Open Scope string_scope.

(** Whitespace for [str.split()] on an ASCII string. *)
Definition is_space (c : ascii) : bool :=
  let n := nat_of_ascii c in
  ((9 <=? n) && (n <=? 13) || (28 <=? n) && (n <=? 32))%nat.

Definition is_empty (s : string) : bool :=
  match s with EmptyString => true | _ => false end.

(** [s.split()]: the maximal runs of non-whitespace characters; [cur] is
    the run being read. *)
Fixpoint split_ws_from (s cur : string) : list string :=
  match s with
  | EmptyString => if is_empty cur then [] else [cur]
  | String c s' =>
      if is_space c
      then (if is_empty cur then split_ws_from s' ""
            else cur :: split_ws_from s' "")
      else split_ws_from s' (cur ++ String c "")
  end.

Definition split_ws (s : string) : list string := split_ws_from s "".

(** [s.split(sep)] for a one-character separator: every occurrence cuts,
    empty fields are kept. *)
Fixpoint split_from (sep : ascii) (s cur : string) : list string :=
  match s with
  | EmptyString => [cur]
  | String c s' =>
      if Ascii.eqb c sep then cur :: split_from sep s' ""
      else split_from sep s' (cur ++ String c "")
  end.

Definition split (sep : ascii) (s : string) : list string :=
  split_from sep s "".

(** [old] is a prefix of [s]. *)
Fixpoint startswith (old s : string) : bool :=
  match old, s with
  | EmptyString, _ => true
  | String a old', String c s' => Ascii.eqb a c && startswith old' s'
  | String _ _, EmptyString => false
  end.

(** [s.replace(old, new)] for a non-empty [old]: the text is read from the
    left, every occurrence of [old] met is replaced and reading goes on
    behind it; [skip] counts the characters of the occurrence still to be
    passed over. *)
Fixpoint replace_from (old new s : string) (skip : nat) : string :=
  match s with
  | EmptyString => EmptyString
  | String c s' =>
      match skip with
      | S k => replace_from old new s' k
      | O =>
          if startswith old s
          then new ++ replace_from old new s' (String.length old - 1)
          else String c (replace_from old new s' 0)
      end
  end.

Definition replace (old new s : string) : string := replace_from old new s 0.

(** A reading of [float(s)] for plain decimal notation (an optional sign,
    digits, an optional fractional part), used to run the model on
    concrete coordinate texts. *)
Definition digit (c : ascii) : option Z :=
  let n := nat_of_ascii c in
  if ((48 <=? n) && (n <=? 57))%nat then Some (Z.of_nat (n - 48)) else None.

Fixpoint read_digits (s : string) (acc : Z) (count : nat)
  : Z * nat * string :=
  match s with
  | EmptyString => (acc, count, s)
  | String c s' =>
      match digit c with
      | Some d => read_digits s' (10 * acc + d)%Z (S count)
      | None => (acc, count, s)
      end
  end.

Definition Z_to_pos (z : Z) : positive :=
  match z with Zpos p => p | _ => 1%positive end.

Definition float_decimal (s : string) : option Q :=
  let '(sign, body) :=
    match s with
    | String "-" r => ((-1)%Z, r)
    | String "+" r => (1%Z, r)
    | _ => (1%Z, s)
    end in
  let '(ip, n1, rest) := read_digits body 0%Z 0%nat in
  match rest with
  | EmptyString =>
      if (n1 =? 0)%nat then None else Some (inject_Z (sign * ip))
  | String "." r2 =>
      let '(fp, n2, rest2) := read_digits r2 0%Z 0%nat in
      match rest2 with
      | EmptyString =>
          if (n1 + n2 =? 0)%nat then None
          else Some (Qmake (sign * (ip * 10 ^ Z.of_nat n2 + fp))
                           (Z_to_pos (10 ^ Z.of_nat n2)))
      | _ => None
      end
  | _ => None
  end.

Close Scope string_scope.

(** ** sample.py *)

Module sample_py.

(** [quad = [latMin, latMax, lonMin, lonMax]]: the list [getQuad] returns,
    with [quad[0]], [quad[1]], [quad[2]], [quad[3]] as fields. *)
Record Quad : Type := mkQuad {
  latMin : Q;
  latMax : Q;
  lonMin : Q;
  lonMax : Q
}.

(** The fractional pixel coordinates of lines 66-69. *)
Record Frac : Type := mkFrac {
  y0 : Q;
  yF : Q;
  x0 : Q;
  xF : Q
}.

(** The integer pixel indices of lines 70-73. *)
Record Bounds : Type := mkBounds {
  j0 : Z;
  jF : Z;
  i0 : Z;
  iF : Z
}.

(** What [main] leaves behind: the array written to the .tif file and the
    two counts [len(yy)], [len(xx)] of its closing report. *)
Record Output : Type := mkOutput {
  written : ndarray;
  len_yy : Z;
  len_xx : Z
}.

(** [interp1(xx, yy, x)], lines 48-53. *)
Definition interp1 (xx yy : list Q) (x : Q) : result Q :=
  xx0 <- getitem xx 0 ;;
  xx1 <- getitem xx 1 ;;
  xx0' <- getitem xx 0 ;;
  pct <- truediv (x - xx0) (xx1 - xx0') ;;
  yy0 <- getitem yy 0 ;;
  yy1 <- getitem yy 1 ;;
  yy0' <- getitem yy 0 ;;
  Ok (yy0 + pct * (yy1 - yy0')).

(** Lines 66-69 of [main]. *)
Definition to_pixel (J I : Z) (quad : Quad) : result Frac :=
  y0 <- interp1 [90; -90] [0; inject_Z J] (latMax quad) ;;
  yF <- interp1 [90; -90] [0; inject_Z J] (latMin quad) ;;
  x0 <- interp1 [-180; 180] [0; inject_Z I] (lonMin quad) ;;
  xF <- interp1 [-180; 180] [0; inject_Z I] (lonMax quad) ;;
  Ok (mkFrac y0 yF x0 xF).

(** Lines 70-73 of [main]. *)
Definition pixel_bounds (f : Frac) : Bounds :=
  mkBounds (Qfloor (y0 f)) (Qceiling (yF f))
           (Qfloor (x0 f)) (Qceiling (xF f)).

(** Lines 74-76 of [main]: the index lists [jj], [ii] and the selected
    sub-array. *)
Definition subgrid (topo : ndarray) (b : Bounds)
  : result (list Z * list Z * ndarray) :=
  let jj := range (j0 b) (jF b) in
  let ii := range (i0 b) (iF b) in
  rows <- take topo jj 0 ;;
  alt <- take rows ii 1 ;;
  Ok (jj, ii, alt).

Section Pipeline.

(** [float(v)]: [None] where Python raises ValueError. *)
Variable float : string -> option Q.

(** The value at [(y, x)] of the surface scipy fits through the samples
    [z] over the grid [x_grid] x [y_grid]. *)
Variable surface : list Z -> list Z -> ndarray -> Q -> Q -> Q.

Definition to_float (v : string) : result Q :=
  match float v with
  | Some q => Ok q
  | None => Raise ValueError
  end.

(** The loop of lines 37-40, [lats] and [lons] being the lists built so
    far. *)
Fixpoint read_parts (parts : list string) (lats lons : list Q)
  : result (list Q * list Q) :=
  match parts with
  | [] => Ok (lats, lons)
  | part :: rest =>
      values <- mapM to_float (split "," part) ;;
      lat <- getitem values 1 ;;
      lon <- getitem values 0 ;;
      read_parts rest (lats ++ [lat]) (lons ++ [lon])
  end.

(** [getQuad], lines 34-46, from [coords.text] on (an ASCII text); the
    line it prints is left out. *)
Definition getQuad (text : string) : result Quad :=
  let parts := split_ws text in
  '(lats, lons) <- read_parts parts [] [] ;;
  latMin <- py_min lats ;;
  latMax <- py_max lats ;;
  lonMin <- py_min lons ;;
  lonMax <- py_max lons ;;
  Ok (mkQuad latMin latMax lonMin lonMax).

(** Modelled from the spec: [scipy.interpolate.RectBivariateSpline] is a
    third-party routine, absent from the repository.  Section 4.4 of the
    specification fixes what the pipeline relies on: a bicubic fit needs
    at least 4 grid points on each axis and fails otherwise; the fitted
    object, called on two coordinate sequences, returns the surface values
    on their Cartesian product. *)
Definition RectBivariateSpline (x y : list Z) (z : ndarray)
  : result (list Q -> list Q -> ndarray) :=
  if ((len x <? 4) || (len y <? 4))%Z then Raise InsufficientSamplesError
  else Ok (fun yy xx => map (fun py => map (fun px => surface x y z py px) xx) yy).

(** Lines 77-80 of [main]. *)
Definition resample (jj ii : list Z) (alt : ndarray) (f : Frac) (ppd : Q)
  : result Output :=
  rbs <- RectBivariateSpline jj ii alt ;;
  step_y <- truediv 1 ppd ;;
  let yy := arange (y0 f) (yF f) step_y in
  step_x <- truediv 1 ppd ;;
  let xx := arange (x0 f) (xF f) step_x in
  Ok (mkOutput (rbs yy xx) (len yy) (len xx)).

(** [main], lines 63-83: [text] is the coordinate text of the polygon,
    [topo] the array read from the GeoTIFF; the default of [ppd] is
    [default_ppd] below. *)
Definition main (text : string) (topo : ndarray) (ppd : Q) : result Output :=
  quad <- getQuad text ;;
  let J := fst (shape topo) in
  let I := snd (shape topo) in
  f <- to_pixel J I quad ;;
  let b := pixel_bounds f in
  '(jj, ii, alt) <- subgrid topo b ;;
  resample jj ii alt f ppd.

End Pipeline.

Definition default_ppd : Q := 50.

(** Line 81 of [main]: the file the result is written to. *)
Definition tifPath (kmlPath : string) : string :=
  replace ".kml" ".tif" kmlPath.

End sample_py.

(** ** export.py *)

Module export_py.

(** [interp1(xx, yy, x)], lines 20-26.  The operands come from a numpy
    array: a zero divisor yields nan or inf there, which is no number and
    is reported as ZeroDivisionError here. *)
Definition interp1 (xx yy : list Q) (x : Q) : result Q :=
  xx0 <- getitem xx 0 ;;
  xx1 <- getitem xx 1 ;;
  xx0' <- getitem xx 0 ;;
  pct <- truediv (x - xx0) (xx1 - xx0') ;;
  yy0 <- getitem yy 0 ;;
  yy1 <- getitem yy 1 ;;
  yy0' <- getitem yy 0 ;;
  Ok (yy0 + pct * (yy1 - yy0')).

(** [defaultColorMap(alt, range)], lines 28-46. *)
Definition defaultColorMap (alt : Q) (range : list Q) : result (list Q) :=
  if Qltb alt 0 then
    lo <- getitem range 0 ;;
    r <- interp1 [lo; 0] [0; 0] alt ;;
    lo <- getitem range 0 ;;
    g <- interp1 [lo; 0] [0; 0] alt ;;
    lo <- getitem range 0 ;;
    b <- interp1 [lo; 0] [0; 1] alt ;;
    Ok [r; g; b]
  else
    hi <- getitem range 1 ;;
    r <- interp1 [0; hi] [0; 1] alt ;;
    hi <- getitem range 1 ;;
    g <- interp1 [0; hi] [1; 1] alt ;;
    hi <- getitem range 1 ;;
    b <- interp1 [0; hi] [0; 1] alt ;;
    Ok [r; g; b].

(** Line 63 of [main]: the file the image is written to. *)
Definition pngPath (tifPath : string) : string :=
  replace ".tif" ".png" tifPath.

End export_py.

(** ** sample.py on binary64 numbers *)

Module binary64.

Import PrimFloat.

(** The float of a Python integer; exact below 2^53 in absolute value,
    which covers the constants of [main] and the shape of a raster. *)
Definition of_Z (z : Z) : float :=
  if (z <? 0)%Z then (- of_uint63 (Uint63.of_Z (- z)))%float
  else of_uint63 (Uint63.of_Z z).

(** [math.floor(x)]: a finite float is [n * 2^e] for integers [n] and [e];
    ValueError on nan, OverflowError on an infinity. *)
Definition floor (x : float) : result Z :=
  match FloatOps.Prim2SF x with
  | SpecFloat.S754_zero _ => Ok 0%Z
  | SpecFloat.S754_finite s m e =>
      let n := if s then Z.neg m else Z.pos m in
      Ok (if (0 <=? e)%Z then n * 2 ^ e else n / 2 ^ (- e))%Z
  | SpecFloat.S754_infinity _ => Raise OverflowError
  | SpecFloat.S754_nan => Raise ValueError
  end.

(** [math.ceil(x)]: ValueError on nan, OverflowError on an infinity. *)
Definition ceil (x : float) : result Z :=
  match FloatOps.Prim2SF x with
  | SpecFloat.S754_zero _ => Ok 0%Z
  | SpecFloat.S754_finite s m e =>
      let n := if s then Z.neg m else Z.pos m in
      Ok (if (0 <=? e)%Z then n * 2 ^ e else - ((- n) / 2 ^ (- e)))%Z
  | SpecFloat.S754_infinity _ => Raise OverflowError
  | SpecFloat.S754_nan => Raise ValueError
  end.

(** [x / y] on Python floats. *)
Definition truediv (x y : float) : result float :=
  if (y =? 0)%float then Raise ZeroDivisionError else Ok (x / y)%float.

(** [quad = [latMin, latMax, lonMin, lonMax]] as floats. *)
Record Quad : Type := mkQuad {
  latMin : float;
  latMax : float;
  lonMin : float;
  lonMax : float
}.

(** The fractional pixel coordinates of lines 66-69. *)
Record Frac : Type := mkFrac {
  y0 : float;
  yF : float;
  x0 : float;
  xF : float
}.

(** [interp1(xx, yy, x)], lines 48-53.  The integers in the lists [main]
    passes are small, so that their differences as floats are their
    differences as integers. *)
Definition interp1 (xx yy : list float) (x : float) : result float :=
  xx0 <- getitem xx 0 ;;
  xx1 <- getitem xx 1 ;;
  xx0' <- getitem xx 0 ;;
  pct <- truediv (x - xx0)%float (xx1 - xx0')%float ;;
  yy0 <- getitem yy 0 ;;
  yy1 <- getitem yy 1 ;;
  yy0' <- getitem yy 0 ;;
  Ok (yy0 + pct * (yy1 - yy0'))%float.

(** Lines 66-69 of [main]. *)
Definition to_pixel (J I : Z) (quad : Quad) : result Frac :=
  y0 <- interp1 [of_Z 90; of_Z (-90)] [of_Z 0; of_Z J] (latMax quad) ;;
  yF <- interp1 [of_Z 90; of_Z (-90)] [of_Z 0; of_Z J] (latMin quad) ;;
  x0 <- interp1 [of_Z (-180); of_Z 180] [of_Z 0; of_Z I] (lonMin quad) ;;
  xF <- interp1 [of_Z (-180); of_Z 180] [of_Z 0; of_Z I] (lonMax quad) ;;
  Ok (mkFrac y0 yF x0 xF).

(** Lines 70-73 of [main]. *)
Definition pixel_bounds (f : Frac) : result sample_py.Bounds :=
  j0 <- floor (y0 f) ;;
  jF <- ceil (yF f) ;;
  i0 <- floor (x0 f) ;;
  iF <- ceil (xF f) ;;
  Ok (sample_py.mkBounds j0 jF i0 iF).

(** The number of elements [numpy.arange] computes from the quotient
    [val = (stop - start) / step]: its ceiling, which must be a number
    (ValueError on nan) within the range of a signed 64-bit index
    (OverflowError otherwise); but when the quotient is 0 although [stop]
    differs from [start], 1 or, for a negative zero, 0. *)
Definition arange_length (next val : float) : result Z :=
  if is_nan val then Raise ValueError
  else
    n <- ceil val ;;
    if ((n <? - 2 ^ 63) || (2 ^ 63 - 1 <? n))%Z then Raise OverflowError
    else if (val =? 0)%float && negb (next =? 0)%float
         then Ok (if get_sign val then 0 else 1)%Z
         else Ok n.

(** [numpy.arange(start, stop, step)] on floats: the first element is
    [start], the second [start + step], and the element at position
    [i >= 2] is [start + i * delta] with [delta = (start + step) - start].
    Memory limits are left out. *)
Definition arange (start stop step : float) : result (list float) :=
  let next := (stop - start)%float in
  val <- truediv next step ;;
  length <- arange_length next val ;;
  if (length <=? 0)%Z then Ok []
  else
    let second := (start + step)%float in
    let delta := (second - start)%float in
    Ok (firstn (Z.to_nat length)
          (start :: second
             :: map (fun i => (start + of_Z i * delta)%float) (range 2 length))).

(** Lines 78-79 of [main]: the sampled rows [yy] and columns [xx]. *)
Definition coordinates (f : Frac) (ppd : float)
  : result (list float * list float) :=
  step_y <- truediv (of_Z 1) ppd ;;
  yy <- arange (y0 f) (yF f) step_y ;;
  step_x <- truediv (of_Z 1) ppd ;;
  xx <- arange (x0 f) (xF f) step_x ;;
  Ok (yy, xx).

End binary64.

(** ** Inputs and predicates for the statements *)

(** An all-zero raster of [J] rows and [I] columns. *)
Definition zeros (J I : nat) : ndarray := repeat (repeat 0 I) J.

(** A stand-in for the fitted surface where its values do not matter. *)
Definition flat_surface : list Z -> list Z -> ndarray -> Q -> Q -> Q :=
  fun _ _ _ _ _ => 0.

(** [m] is, up to the equality of rationals, the least element of [l]. *)
Definition is_min (m : Q) (l : list Q) : Prop :=
  (exists x, In x l /\ x == m) /\ (forall x, In x l -> m <= x).

(** [m] is, up to the equality of rationals, the greatest element of [l]. *)
Definition is_max (m : Q) (l : list Q) : Prop :=
  (exists x, In x l /\ x == m) /\ (forall x, In x l -> x <= m).



(** A colour component lies in [[0, 1]]. *)
Definition unit_interval (c : Q) : Prop := 0 <= c /\ c <= 1.

(** Two quads agree field by field, up to the equality of rationals. *)
Definition Quad_eq (q1 q2 : sample_py.Quad) : Prop :=
  sample_py.latMin q1 == sample_py.latMin q2 /\
  sample_py.latMax q1 == sample_py.latMax q2 /\
  sample_py.lonMin q1 == sample_py.lonMin q2 /\
  sample_py.lonMax q1 == sample_py.lonMax q2.

(** What one turn of the loop of [getQuad] appends: the latitude and the
    longitude of a part. *)
Definition vertex_of (float : string -> option Q) (part : string)
  : result (Q * Q) :=
  values <- mapM (sample_py.to_float float) (split "," part) ;;
  lat <- getitem values 1 ;;
  lon <- getitem values 0 ;;
  Ok (lat, lon).

(** The colour map returned the triplet [(r, g, b)], up to the equality of
    rationals. *)
Definition is_rgb (res : result (list Q)) (r g b : Q) : Prop :=
  exists r' g' b', res = Ok [r'; g'; b'] /\ r' == r /\ g' == g /\ b' == b.

(** [old] occurs in [s] at some position. *)
Fixpoint occurs (old s : string) : bool :=
  match s with
  | EmptyString => startswith old s
  | String _ s' => startswith old s || occurs old s'
  end.

(** * Properties *)

(** ** Linear interpolation *)

Lemma getitem_pair_0 {A} (a b : A) : getitem [a; b] 0 = Ok a.
Proof. reflexivity. Qed.

Lemma getitem_pair_1 {A} (a b : A) : getitem [a; b] 1 = Ok b.
Proof. reflexivity. Qed.

Lemma sample_interp1_pair (a b c d x : Q) :
  ~ b - a == 0 ->
  sample_py.interp1 [a; b] [c; d] x = Ok (c + (x - a) / (b - a) * (d - c)).
Proof.
  intros Hne. unfold sample_py.interp1, truediv.
  rewrite !getitem_pair_0, !getitem_pair_1. cbn [bind].
  destruct (Qeq_bool (b - a) 0) eqn:E.
  - apply Qeq_bool_iff in E. contradiction.
  - reflexivity.
Qed.

Lemma export_interp1_pair (a b c d x : Q) :
  ~ b - a == 0 ->
  export_py.interp1 [a; b] [c; d] x = Ok (c + (x - a) / (b - a) * (d - c)).
Proof.
  intros Hne. unfold export_py.interp1, truediv.
  rewrite !getitem_pair_0, !getitem_pair_1. cbn [bind].
  destruct (Qeq_bool (b - a) 0) eqn:E.
  - apply Qeq_bool_iff in E. contradiction.
  - reflexivity.
Qed.

Lemma interp1_zero_span (a c d x : Q) :
  export_py.interp1 [a; a] [c; d] x = Raise ZeroDivisionError.
Proof.
  unfold export_py.interp1, truediv.
  rewrite !getitem_pair_0, !getitem_pair_1. cbn [bind].
  assert (E : Qeq_bool (a - a) 0 = true) by (apply Qeq_bool_iff; ring).
  now rewrite E.
Qed.

(** Rows: latitude 90 goes to row 0 and latitude -90 to row [J]. *)
Lemma to_row (J : Z) (lat : Q) :
  sample_py.interp1 [90; -90] [0; inject_Z J] lat
  = Ok (0 + (lat - 90) / (-90 - 90) * (inject_Z J - 0)).
Proof. apply sample_interp1_pair. discriminate. Qed.

(** Columns: longitude -180 goes to column 0 and longitude 180 to column
    [I]. *)
Lemma to_col (I : Z) (lon : Q) :
  sample_py.interp1 [-180; 180] [0; inject_Z I] lon
  = Ok (0 + (lon - -180) / (180 - -180) * (inject_Z I - 0)).
Proof. apply sample_interp1_pair. discriminate. Qed.

Lemma to_pixel_eq (J I : Z) (q : sample_py.Quad) :
  sample_py.to_pixel J I q
  = Ok (sample_py.mkFrac
          (0 + (sample_py.latMax q - 90) / (-90 - 90) * (inject_Z J - 0))
          (0 + (sample_py.latMin q - 90) / (-90 - 90) * (inject_Z J - 0))
          (0 + (sample_py.lonMin q - -180) / (180 - -180) * (inject_Z I - 0))
          (0 + (sample_py.lonMax q - -180) / (180 - -180) * (inject_Z I - 0))).
Proof.
  unfold sample_py.to_pixel. now rewrite !to_row, !to_col.
Qed.

(** C2.  The integer pixel bounds are the floor of the upper-left and the
    ceiling of the lower-right fractional bounds, [y0] coming from latMax,
    [yF] from latMin, [x0] from lonMin and [xF] from lonMax, and they
    enclose the fractional bounds: [j0 <= y0], [yF <= jF], [i0 <= x0],
    [xF <= iF].  This holds for every quad and every raster size, so in
    particular for the quads with [latMin <= latMax] and
    [lonMin <= lonMax]. *)
Theorem pixel_bounds_enclose (J I : Z) (quad : sample_py.Quad) :
  exists f : sample_py.Frac,
    sample_py.to_pixel J I quad = Ok f /\
    sample_py.interp1 [90; -90] [0; inject_Z J] (sample_py.latMax quad)
      = Ok (sample_py.y0 f) /\
    sample_py.interp1 [90; -90] [0; inject_Z J] (sample_py.latMin quad)
      = Ok (sample_py.yF f) /\
    sample_py.interp1 [-180; 180] [0; inject_Z I] (sample_py.lonMin quad)
      = Ok (sample_py.x0 f) /\
    sample_py.interp1 [-180; 180] [0; inject_Z I] (sample_py.lonMax quad)
      = Ok (sample_py.xF f) /\
    let b := sample_py.pixel_bounds f in
    sample_py.j0 b = Qfloor (sample_py.y0 f) /\
    sample_py.jF b = Qceiling (sample_py.yF f) /\
    sample_py.i0 b = Qfloor (sample_py.x0 f) /\
    sample_py.iF b = Qceiling (sample_py.xF f) /\
    inject_Z (sample_py.j0 b) <= sample_py.y0 f /\
    sample_py.yF f <= inject_Z (sample_py.jF b) /\
    inject_Z (sample_py.i0 b) <= sample_py.x0 f /\
    sample_py.xF f <= inject_Z (sample_py.iF b).
Proof.
  eexists. split; [apply to_pixel_eq|].
  cbn [sample_py.y0 sample_py.yF sample_py.x0 sample_py.xF].
  rewrite !to_row, !to_col.
  repeat split; cbn [sample_py.pixel_bounds sample_py.j0 sample_py.jF
                     sample_py.i0 sample_py.iF sample_py.y0 sample_py.yF
                     sample_py.x0 sample_py.xF];
    auto using Qfloor_le, Qle_ceiling.
Qed.

(** C4.  Over exact arithmetic the latitude-to-row mapping followed by its
    inverse [interp1([0, J], [90, -90], .)] is the identity, and so is the
    longitude-to-column mapping followed by
    [interp1([0, I], [-180, 180], .)], for a raster with at least one row
    and one column.  No bound on [lat] and [lon] is needed, so the
    coordinates inside the extent are covered. *)
Theorem pixel_roundtrip (J I : Z) (lat lon : Q) :
  (0 < J)%Z -> (0 < I)%Z ->
  exists row col lat' lon' : Q,
    sample_py.interp1 [90; -90] [0; inject_Z J] lat = Ok row /\
    sample_py.interp1 [0; inject_Z J] [90; -90] row = Ok lat' /\
    lat' == lat /\
    sample_py.interp1 [-180; 180] [0; inject_Z I] lon = Ok col /\
    sample_py.interp1 [0; inject_Z I] [-180; 180] col = Ok lon' /\
    lon' == lon.
Proof.
  intros HJ HI.
  assert (HJq : ~ inject_Z J == 0).
  { intro E. unfold Qeq in E. cbn in E. lia. }
  assert (HIq : ~ inject_Z I == 0).
  { intro E. unfold Qeq in E. cbn in E. lia. }
  do 4 eexists.
  split; [apply to_row|].
  split; [apply sample_interp1_pair; intro E; apply HJq; rewrite <- E; ring|].
  split; [field; exact HJq|].
  split; [apply to_col|].
  split; [apply sample_interp1_pair; intro E; apply HIq; rewrite <- E; ring|].
  field; exact HIq.
Qed.

Lemma pixel_roundtrip_witness :
  exists row col lat' lon' : Q,
    sample_py.interp1 [90; -90] [0; inject_Z 180] 10 = Ok row /\
    sample_py.interp1 [0; inject_Z 180] [90; -90] row = Ok lat' /\
    lat' == 10 /\
    sample_py.interp1 [-180; 180] [0; inject_Z 360] 30 = Ok col /\
    sample_py.interp1 [0; inject_Z 360] [-180; 180] col = Ok lon' /\
    lon' == 30.
Proof. apply (pixel_roundtrip 180 360 10 30); reflexivity. Defined.

(** ** The default colour map *)

Lemma Qltb_lt (x y : Q) : Qltb x y = true <-> x < y.
Proof.
  unfold Qltb. rewrite negb_true_iff.
  destruct (Qle_bool y x) eqn:E.
  - apply Qle_bool_iff in E. split; [discriminate | intro; exfalso; lra].
  - split; [intros _ | reflexivity].
    apply Qnot_le_lt. intro H. apply Qle_bool_iff in H. congruence.
Qed.

Lemma Qltb_ge (x y : Q) : Qltb x y = false <-> y <= x.
Proof.
  destruct (Qltb x y) eqn:E.
  - apply Qltb_lt in E. split; [discriminate | intro; exfalso; lra].
  - split; [intros _ | reflexivity].
    apply Qnot_lt_le. intro H. apply Qltb_lt in H. congruence.
Qed.

Lemma ratio_in_unit_interval (n d : Q) :
  0 < d -> 0 <= n -> n <= d -> unit_interval (0 + n / d * (1 - 0)).
Proof.
  intros Hd Hn Hnd.
  assert (E : 0 + n / d * (1 - 0) == n / d) by ring.
  unfold unit_interval. rewrite E. split.
  - apply Qle_shift_div_l; [exact Hd | lra].
  - apply Qle_shift_div_r; [exact Hd | lra].
Qed.

(** Away from the case [alt = max = 0] the map is defined and stays in
    the unit cube: below sea level it runs from black to blue, above from
    green to white. *)
Lemma defaultColorMap_in_unit_cube (alt lo hi : Q) :
  lo <= alt -> alt <= hi -> alt < 0 \/ 0 < hi ->
  exists r g b : Q,
    export_py.defaultColorMap alt [lo; hi] = Ok [r; g; b] /\
    unit_interval r /\ unit_interval g /\ unit_interval b.
Proof.
  intros Hlo Hhi Hcase. unfold export_py.defaultColorMap.
  destruct (Qltb alt 0) eqn:E.
  - apply Qltb_lt in E.
    rewrite !getitem_pair_0. cbn [bind].
    rewrite !export_interp1_pair by (intro H; lra). cbn [bind].
    do 3 eexists. split; [reflexivity|].
    split; [|split].
    + unfold unit_interval; split; ring_simplify; lra.
    + unfold unit_interval; split; ring_simplify; lra.
    + apply ratio_in_unit_interval; lra.
  - apply Qltb_ge in E.
    assert (Hpos : 0 < hi) by (destruct Hcase; lra).
    rewrite !getitem_pair_1. cbn [bind].
    rewrite !export_interp1_pair by (intro H; lra). cbn [bind].
    do 3 eexists. split; [reflexivity|].
    split; [|split].
    + apply ratio_in_unit_interval; lra.
    + unfold unit_interval; split; ring_simplify; lra.
    + apply ratio_in_unit_interval; lra.
Qed.

(** C9.  With the heightmap range [[-100, 0]] the altitude 0 lies in the
    range, takes the second branch of the colour map and divides by
    [range[1] - 0 = 0]: no RGB triplet is produced.  The same happens for
    every range whose maximum is 0. *)
Theorem defaultColorMap_zero_max :
  (-100 <= 0 /\ 0 <= 0) /\
  export_py.defaultColorMap 0 [-100; 0] = Raise ZeroDivisionError /\
  forall lo : Q, export_py.defaultColorMap 0 [lo; 0] = Raise ZeroDivisionError.
Proof.
  split; [split; lra|]. split; [reflexivity|].
  intro lo. unfold export_py.defaultColorMap.
  change (Qltb 0 0) with false. cbv iota.
  rewrite getitem_pair_1. cbn [bind].
  now rewrite interp1_zero_span.
Qed.

(** ** Sequences: comprehension, indexing, extrema *)

Lemma mapM_is_ok {A B} (f : A -> result B) (l : list A) :
  is_ok (mapM f l) = forallb (fun a => is_ok (f a)) l.
Proof.
  induction l as [|a l IH]; [reflexivity|].
  cbn [mapM forallb]. destruct (f a); cbn [bind is_ok andb]; [|reflexivity].
  rewrite <- IH. now destruct (mapM f l).
Qed.

Lemma mapM_length {A B} (f : A -> result B) (l : list A) (bs : list B) :
  mapM f l = Ok bs -> List.length bs = List.length l.
Proof.
  revert bs. induction l as [|a l IH]; intros bs H; cbn [mapM] in H.
  - now inversion H.
  - destruct (f a); cbn [bind] in H; [|discriminate].
    destruct (mapM f l) as [bs'|]; cbn [bind] in H; [|discriminate].
    inversion H. cbn. now rewrite (IH bs').
Qed.

Lemma mapM_raises {A B} (f : A -> result B) (P : exn -> Prop) (l : list A) :
  (forall a e, f a = Raise e -> P e) ->
  forall e, mapM f l = Raise e -> P e.
Proof.
  intros Hf. induction l as [|a l IH]; intros e H; cbn [mapM] in H.
  - discriminate.
  - destruct (f a) eqn:Ea; cbn [bind] in H.
    + destruct (mapM f l); cbn [bind] in H; [discriminate|].
      inversion H; subst. now apply IH.
    + inversion H; subst. now apply (Hf a).
Qed.

Lemma mapM_elements {A B} (f : A -> result B) (l : list A) (bs : list B) :
  mapM f l = Ok bs -> forall b, In b bs -> exists a, In a l /\ f a = Ok b.
Proof.
  revert bs. induction l as [|a l IH]; intros bs H b Hb; cbn [mapM] in H.
  - inversion H; subst. contradiction.
  - destruct (f a) as [b0|] eqn:Ea; cbn [bind] in H; [|discriminate].
    destruct (mapM f l) as [bs'|]; cbn [bind] in H; [|discriminate].
    inversion H; subst. destruct Hb as [<-|Hb].
    + exists a. split; [now left | exact Ea].
    + destruct (IH bs' eq_refl b Hb) as (a' & Ha' & Hfa').
      exists a'. split; [now right | exact Hfa'].
Qed.

Lemma getitem_in_range {A} (l : list A) (k : Z) :
  (- len l <= k < len l)%Z -> exists a, getitem l k = Ok a /\ In a l.
Proof.
  intros Hk. unfold getitem.
  replace ((- len l <=? k) && (k <? len l))%Z with true
    by (symmetry; apply andb_true_iff; split; [apply Z.leb_le | apply Z.ltb_lt]; lia).
  set (n := Z.to_nat (if (k <? 0)%Z then (k + len l)%Z else k)).
  assert (Hn : (n < List.length l)%nat).
  { unfold n, len in *. destruct (k <? 0)%Z eqn:E.
    - apply Z.ltb_lt in E. lia.
    - apply Z.ltb_ge in E. lia. }
  destruct (nth_error l n) as [a|] eqn:E.
  - exists a. split; [reflexivity|]. eapply nth_error_In; eassumption.
  - apply nth_error_None in E. lia.
Qed.

Lemma getitem_out_of_range {A} (l : list A) (k : Z) :
  (k < - len l \/ len l <= k)%Z -> getitem l k = Raise IndexError.
Proof.
  intros Hk. unfold getitem.
  replace ((- len l <=? k) && (k <? len l))%Z with false; [reflexivity|].
  symmetry. apply andb_false_iff. destruct Hk.
  - left. apply Z.leb_gt. lia.
  - right. apply Z.ltb_ge. lia.
Qed.

Lemma getitem_raises {A} (l : list A) (k : Z) (e : exn) :
  getitem l k = Raise e -> e = IndexError.
Proof.
  unfold getitem.
  destruct ((- len l <=? k) && (k <? len l))%Z; [|now inversion 1].
  destruct (nth_error l _); [discriminate | now inversion 1].
Qed.

Lemma getitem_is_ok {A} (l : list A) (k : Z) :
  is_ok (getitem l k) = ((- len l <=? k) && (k <? len l))%Z.
Proof.
  destruct ((- len l <=? k) && (k <? len l))%Z eqn:E.
  - apply andb_true_iff in E. destruct E as [E1 E2].
    apply Z.leb_le in E1. apply Z.ltb_lt in E2.
    destruct (getitem_in_range l k) as (a & -> & _); [lia | reflexivity].
  - apply andb_false_iff in E.
    rewrite getitem_out_of_range; [reflexivity|].
    destruct E as [E|E]; [apply Z.leb_gt in E | apply Z.ltb_ge in E]; lia.
Qed.

(** The running minimum of [min]: it is the start value or an element, and
    it is below both. *)
Lemma fold_min_spec (r : list Q) (x : Q) :
  let m := fold_left (fun m y => if Qltb y m then y else m) r x in
  (m = x \/ In m r) /\ m <= x /\ (forall y, In y r -> m <= y).
Proof.
  revert x. induction r as [|z r IH]; intro x; cbn [fold_left].
  - split; [now left|]. split; [lra | contradiction].
  - destruct (Qltb z x) eqn:E.
    + apply Qltb_lt in E. destruct (IH z) as (Hin & Hle & Hall).
      split; [right; destruct Hin as [->|Hin]; [now left | now right]|].
      split; [lra|]. intros y [<-|Hy]; [exact Hle | now apply Hall].
    + apply Qltb_ge in E. destruct (IH x) as (Hin & Hle & Hall).
      split; [destruct Hin as [->|Hin]; [now left | right; now right]|].
      split; [exact Hle|]. intros y [<-|Hy]; [lra | now apply Hall].
Qed.

Lemma fold_max_spec (r : list Q) (x : Q) :
  let m := fold_left (fun m y => if Qltb m y then y else m) r x in
  (m = x \/ In m r) /\ x <= m /\ (forall y, In y r -> y <= m).
Proof.
  revert x. induction r as [|z r IH]; intro x; cbn [fold_left].
  - split; [now left|]. split; [lra | contradiction].
  - destruct (Qltb x z) eqn:E.
    + apply Qltb_lt in E. destruct (IH z) as (Hin & Hle & Hall).
      split; [right; destruct Hin as [->|Hin]; [now left | now right]|].
      split; [lra|]. intros y [<-|Hy]; [exact Hle | now apply Hall].
    + apply Qltb_ge in E. destruct (IH x) as (Hin & Hle & Hall).
      split; [destruct Hin as [->|Hin]; [now left | right; now right]|].
      split; [exact Hle|]. intros y [<-|Hy]; [lra | now apply Hall].
Qed.

Lemma py_min_spec (l : list Q) :
  l <> [] -> exists m, py_min l = Ok m /\ In m l /\ forall y, In y l -> m <= y.
Proof.
  destruct l as [|x r]; [congruence|]. intros _.
  eexists. split; [reflexivity|].
  destruct (fold_min_spec r x) as (Hin & Hle & Hall).
  split; [destruct Hin as [->|Hin]; [now left | now right]|].
  intros y [<-|Hy]; [exact Hle | now apply Hall].
Qed.

Lemma py_max_spec (l : list Q) :
  l <> [] -> exists m, py_max l = Ok m /\ In m l /\ forall y, In y l -> y <= m.
Proof.
  destruct l as [|x r]; [congruence|]. intros _.
  eexists. split; [reflexivity|].
  destruct (fold_max_spec r x) as (Hin & Hle & Hall).
  split; [destruct Hin as [->|Hin]; [now left | now right]|].
  intros y [<-|Hy]; [exact Hle | now apply Hall].
Qed.

(** ** The boundary extractor *)

Section Boundary.

Variable float : string -> option Q.




Lemma read_parts_length (parts : list string) :
  forall lats lons lats' lons',
    sample_py.read_parts float parts lats lons = Ok (lats', lons') ->
    List.length lats' = (List.length lats + List.length parts)%nat /\
    List.length lons' = (List.length lons + List.length parts)%nat.
Proof.
  induction parts as [|part rest IH]; intros lats lons lats' lons' H;
    cbn [sample_py.read_parts] in H.
  - inversion H; subst. cbn. lia.
  - destruct (mapM _ _) as [values|]; cbn [bind] in H; [|discriminate].
    destruct (getitem values 1) as [lat|]; cbn [bind] in H; [|discriminate].
    destruct (getitem values 0) as [lon|]; cbn [bind] in H; [|discriminate].
    apply IH in H. rewrite !length_app in H. cbn in *. lia.
Qed.


(** What [getQuad] returns once the loop has produced the two coordinate
    lists. *)
Lemma getQuad_extrema (text : string) (lats lons : list Q) :
  sample_py.read_parts float (split_ws text) [] [] = Ok (lats, lons) ->
  split_ws text <> [] ->
  exists q,
    sample_py.getQuad float text = Ok q /\
    (In (sample_py.latMin q) lats /\
     forall y, In y lats -> sample_py.latMin q <= y) /\
    (In (sample_py.latMax q) lats /\
     forall y, In y lats -> y <= sample_py.latMax q) /\
    (In (sample_py.lonMin q) lons /\
     forall x, In x lons -> sample_py.lonMin q <= x) /\
    (In (sample_py.lonMax q) lons /\
     forall x, In x lons -> x <= sample_py.lonMax q).
Proof.
  intros Hread Hne.
  destruct (read_parts_length _ _ _ _ _ Hread) as [Hla Hlo]. cbn in Hla, Hlo.
  assert (Hparts : List.length (split_ws text) <> 0%nat).
  { destruct (split_ws text); [congruence | discriminate]. }
  assert (Hlats : lats <> []) by (intros ->; cbn in Hla; lia).
  assert (Hlons : lons <> []) by (intros ->; cbn in Hlo; lia).
  destruct (py_min_spec lats Hlats) as (a & Ea & Ha).
  destruct (py_max_spec lats Hlats) as (b & Eb & Hb).
  destruct (py_min_spec lons Hlons) as (c & Ec & Hc).
  destruct (py_max_spec lons Hlons) as (d & Ed & Hd).
  exists (sample_py.mkQuad a b c d).
  unfold sample_py.getQuad. rewrite Hread. cbn [bind].
  rewrite Ea, Eb, Ec, Ed. cbn [bind].
  repeat split; cbn; tauto.
Qed.

(** C8.  For a boundary with at least one vertex whose coordinates are
    read into the lists [lats] and [lons], [getQuad] returns a quad whose
    latMin/latMax are the least/greatest element of [lats] and whose
    lonMin/lonMax are the least/greatest element of [lons]; hence
    [latMin <= latMax] and [lonMin <= lonMax]. *)
Theorem getQuad_is_bounding_box (text : string) (lats lons : list Q) :
  sample_py.read_parts float (split_ws text) [] [] = Ok (lats, lons) ->
  split_ws text <> [] ->
  exists q,
    sample_py.getQuad float text = Ok q /\
    sample_py.latMin q <= sample_py.latMax q /\
    sample_py.lonMin q <= sample_py.lonMax q /\
    is_min (sample_py.latMin q) lats /\
    is_max (sample_py.latMax q) lats /\
    is_min (sample_py.lonMin q) lons /\
    is_max (sample_py.lonMax q) lons.
Proof.
  intros Hread Hne.
  destruct (getQuad_extrema text lats lons Hread Hne)
    as (q & Hq & (Ha & Ha') & (Hb & Hb') & (Hc & Hc') & (Hd & Hd')).
  exists q. split; [exact Hq|].
  split; [now apply Ha'|]. split; [now apply Hc'|].
  assert (Hself : forall m l, In m l -> exists x, In x l /\ x == m).
  { intros m l Hm. exists m. split; [exact Hm | reflexivity]. }
  unfold is_min, is_max. repeat split; auto.
Qed.


End Boundary.


Lemma getQuad_is_bounding_box_witness :
  exists q,
    sample_py.getQuad float_decimal "30,10 40,10 40,20 30,20 30,10" = Ok q /\
    sample_py.latMin q <= sample_py.latMax q /\
    sample_py.lonMin q <= sample_py.lonMax q /\
    is_min (sample_py.latMin q) [10; 10; 20; 20; 10] /\
    is_max (sample_py.latMax q) [10; 10; 20; 20; 10] /\
    is_min (sample_py.lonMin q) [30; 40; 40; 30; 30] /\
    is_max (sample_py.lonMax q) [30; 40; 40; 30; 30].
Proof.
  apply (getQuad_is_bounding_box float_decimal
           "30,10 40,10 40,20 30,20 30,10"
           [10; 10; 20; 20; 10] [30; 40; 40; 30; 30]).
  - reflexivity.
  - discriminate.
Defined.

(** ** Index ranges and sub-array selection *)

Lemma range_from_length (a : Z) (n : nat) : List.length (range_from a n) = n.
Proof. revert a. induction n; intro a; cbn; [reflexivity | now rewrite IHn]. Qed.

Lemma range_from_In (n : nat) :
  forall a k, In k (range_from a n) <-> (a <= k < a + Z.of_nat n)%Z.
Proof.
  induction n as [|n IH]; intros a k; cbn [range_from In].
  - split; [contradiction | lia].
  - rewrite IH. lia.
Qed.

Lemma range_len (a b : Z) : len (range a b) = Z.max 0 (b - a).
Proof. unfold len, range. rewrite range_from_length. lia. Qed.

Lemma range_In (a b k : Z) : In k (range a b) <-> (a <= k < b)%Z.
Proof. unfold range. rewrite range_from_In. lia. Qed.

Lemma mapM_getitem_ok {A} (l : list A) (idx : list Z) :
  (forall k, In k idx -> (- len l <= k < len l)%Z) ->
  exists out,
    mapM (getitem l) idx = Ok out /\
    List.length out = List.length idx /\
    (forall a, In a out -> In a l).
Proof.
  intros Hidx.
  destruct (mapM (getitem l) idx) as [out|e] eqn:E.
  - exists out. split; [reflexivity|]. split; [eapply mapM_length; eassumption|].
    intros a Ha. destruct (mapM_elements _ _ _ E a Ha) as (k & Hk & Hget).
    destruct (getitem_in_range l k (Hidx k Hk)) as (a' & Hget' & Hin).
    congruence.
  - exfalso. assert (H : is_ok (mapM (getitem l) idx) = true).
    { rewrite mapM_is_ok. apply forallb_forall. intros k Hk.
      destruct (getitem_in_range l k (Hidx k Hk)) as (a & -> & _). reflexivity. }
    rewrite E in H. discriminate.
Qed.

Lemma mapM_getitem_raise {A} (l : list A) (idx : list Z) (k : Z) :
  In k idx -> (k < - len l \/ len l <= k)%Z ->
  mapM (getitem l) idx = Raise IndexError.
Proof.
  intros Hk Hout.
  destruct (mapM (getitem l) idx) as [out|e] eqn:E.
  - exfalso. assert (H : is_ok (mapM (getitem l) idx) = true) by now rewrite E.
    rewrite mapM_is_ok, forallb_forall in H. specialize (H k Hk).
    rewrite getitem_out_of_range in H by exact Hout. discriminate.
  - f_equal. eapply (mapM_raises _ (fun e => e = IndexError)); [|eassumption].
    intros a e0. apply getitem_raises.
Qed.

(** Selection succeeds when every row index lies in [-J, J) and every
    column index in [-I, I). *)
Lemma subgrid_ok (topo : ndarray) (J I : Z) (b : sample_py.Bounds) :
  has_shape J I topo ->
  (forall k, (sample_py.j0 b <= k < sample_py.jF b)%Z -> (- J <= k < J)%Z) ->
  (forall k, (sample_py.i0 b <= k < sample_py.iF b)%Z -> (- I <= k < I)%Z) ->
  exists alt,
    sample_py.subgrid topo b
    = Ok (range (sample_py.j0 b) (sample_py.jF b),
          range (sample_py.i0 b) (sample_py.iF b), alt) /\
    len alt = len (range (sample_py.j0 b) (sample_py.jF b)).
Proof.
  intros [HJ HI] Hrows Hcols. unfold sample_py.subgrid, take.
  change (0 =? 0)%Z with true. change (1 =? 0)%Z with false. cbv iota.
  destruct (mapM_getitem_ok topo (range (sample_py.j0 b) (sample_py.jF b)))
    as (rows & -> & Hlen & Hin).
  { intros k Hk. rewrite HJ. apply Hrows. now apply range_In. }
  cbn [bind].
  destruct (mapM (fun row => mapM (getitem row)
                              (range (sample_py.i0 b) (sample_py.iF b))) rows)
    as [alt|e] eqn:E.
  - exists alt. split; [reflexivity|].
    unfold len. now rewrite (mapM_length _ _ _ E), Hlen.
  - exfalso.
    assert (H : is_ok (mapM (fun row => mapM (getitem row)
                  (range (sample_py.i0 b) (sample_py.iF b))) rows) = true).
    { rewrite mapM_is_ok. apply forallb_forall. intros row Hrow.
      destruct (mapM_getitem_ok row (range (sample_py.i0 b) (sample_py.iF b)))
        as (out & -> & _); [|reflexivity].
      intros k Hk. rewrite Forall_forall in HI. rewrite (HI row (Hin row Hrow)).
      apply Hcols. now apply range_In. }
    rewrite E in H. discriminate.
Qed.

(** A row index outside [-J, J) makes the selection raise IndexError. *)
Lemma subgrid_bad_row (topo : ndarray) (b : sample_py.Bounds) (k : Z) :
  (sample_py.j0 b <= k < sample_py.jF b)%Z ->
  (k < - len topo \/ len topo <= k)%Z ->
  sample_py.subgrid topo b = Raise IndexError.
Proof.
  intros Hk Hout. unfold sample_py.subgrid, take.
  change (0 =? 0)%Z with true. cbv iota.
  rewrite (mapM_getitem_raise topo _ k); [reflexivity | now apply range_In | exact Hout].
Qed.

(** With at least one row selected, a column index outside [-I, I) makes
    the selection raise IndexError. *)
Lemma subgrid_bad_col (topo : ndarray) (J I : Z) (b : sample_py.Bounds) (k : Z) :
  has_shape J I topo ->
  (sample_py.j0 b < sample_py.jF b)%Z ->
  (forall j, (sample_py.j0 b <= j < sample_py.jF b)%Z -> (- J <= j < J)%Z) ->
  (sample_py.i0 b <= k < sample_py.iF b)%Z ->
  (k < - I \/ I <= k)%Z ->
  sample_py.subgrid topo b = Raise IndexError.
Proof.
  intros [HJ HI] Hne Hrows Hk Hout. unfold sample_py.subgrid, take.
  change (0 =? 0)%Z with true. change (1 =? 0)%Z with false. cbv iota.
  destruct (mapM_getitem_ok topo (range (sample_py.j0 b) (sample_py.jF b)))
    as (rows & -> & Hlen & Hin).
  { intros j Hj. rewrite HJ. apply Hrows. now apply range_In. }
  cbn [bind].
  destruct rows as [|row rows].
  { exfalso. pose proof (range_len (sample_py.j0 b) (sample_py.jF b)) as Hl.
    unfold len in Hl. rewrite <- Hlen in Hl. cbn in Hl. lia. }
  cbn [mapM].
  rewrite (mapM_getitem_raise row _ k); [reflexivity | now apply range_In |].
  rewrite Forall_forall in HI. rewrite (HI row (Hin row (or_introl eq_refl))).
  exact Hout.
Qed.

(** C6 (as the code has it).  The selection has no bounds check of its own
    and no OutOfBoundsError.  For non-empty index ranges it succeeds
    exactly when [-J <= j0], [jF <= J], [-I <= i0] and [iF <= I], negative
    indices counting from the end of the axis, and raises IndexError
    otherwise. *)
Theorem subgrid_index_check (topo : ndarray) (J I : Z) (b : sample_py.Bounds) :
  has_shape J I topo ->
  (sample_py.j0 b < sample_py.jF b)%Z ->
  (sample_py.i0 b < sample_py.iF b)%Z ->
  if ((- J <=? sample_py.j0 b) && (sample_py.jF b <=? J)
      && (- I <=? sample_py.i0 b) && (sample_py.iF b <=? I))%Z
  then is_ok (sample_py.subgrid topo b) = true
  else sample_py.subgrid topo b = Raise IndexError.
Proof.
  intros Hshape Hj Hi.
  destruct (- J <=? sample_py.j0 b)%Z eqn:E1; cbn [andb].
  2:{ apply Z.leb_gt in E1. destruct Hshape as [HJ _].
      apply (subgrid_bad_row topo b (sample_py.j0 b)); lia. }
  destruct (sample_py.jF b <=? J)%Z eqn:E2; cbn [andb].
  2:{ apply Z.leb_gt in E2. destruct Hshape as [HJ _].
      apply (subgrid_bad_row topo b (sample_py.jF b - 1)); lia. }
  apply Z.leb_le in E1, E2.
  destruct (- I <=? sample_py.i0 b)%Z eqn:E3; cbn [andb].
  2:{ apply Z.leb_gt in E3.
      apply (subgrid_bad_col topo J I b (sample_py.i0 b)); try assumption; lia. }
  destruct (sample_py.iF b <=? I)%Z eqn:E4.
  2:{ apply Z.leb_gt in E4.
      apply (subgrid_bad_col topo J I b (sample_py.iF b - 1)); try assumption; lia. }
  apply Z.leb_le in E3, E4.
  destruct (subgrid_ok topo J I b Hshape) as (alt & -> & _); [lia | lia | reflexivity].
Qed.

Lemma subgrid_witness_shape : has_shape 180 360 (zeros 180 360).
Proof.
  split; [reflexivity|]. apply Forall_forall. intros row Hrow.
  apply repeat_spec in Hrow. subst row. reflexivity.
Qed.

Lemma subgrid_index_check_witness :
  is_ok (sample_py.subgrid (zeros 180 360)
           (sample_py.mkBounds (-20) (-10) 210 220)) = true.
Proof.
  apply (subgrid_index_check (zeros 180 360) 180 360
           (sample_py.mkBounds (-20) (-10) 210 220)).
  - exact subgrid_witness_shape.
  - reflexivity.
  - reflexivity.
Defined.

(** C6 (as stated).  The quad of latitudes 100 to 110 lies entirely north
    of the raster's extent and its pixel rows -20 to -10 lie outside
    [0, 180); the selection wraps them around and the whole pipeline
    returns without raising. *)
Lemma quad_outside_extent_accepted :
  exists f,
    sample_py.to_pixel 180 360 (sample_py.mkQuad 100 110 30 40) = Ok f /\
    sample_py.pixel_bounds f = sample_py.mkBounds (-20) (-10) 210 220 /\
    is_ok (sample_py.subgrid (zeros 180 360) (sample_py.pixel_bounds f)) = true /\
    sample_py.getQuad float_decimal "30,100 40,100 40,110 30,110"
      = Ok (sample_py.mkQuad 100 110 30 40) /\
    is_ok (sample_py.main float_decimal flat_surface
             "30,100 40,100 40,110 30,110" (zeros 180 360) 1) = true.
Proof.
  eexists. split; [apply to_pixel_eq|].
  split; [reflexivity|]. split; [vm_compute; reflexivity|].
  split; [reflexivity | vm_compute; reflexivity].
Qed.

(** ** The output coordinate sequences *)

Lemma arange_empty (a b s : Q) : a == b -> arange a b s = [].
Proof.
  intros E. unfold arange.
  assert (H : (b - a) / s == 0) by (rewrite E; unfold Qdiv; ring).
  rewrite (Qceiling_comp _ _ H). reflexivity.
Qed.

(** ** The pipeline *)

Lemma subgrid_indices (topo : ndarray) (b : sample_py.Bounds)
      (jj ii : list Z) (alt : ndarray) :
  sample_py.subgrid topo b = Ok (jj, ii, alt) ->
  jj = range (sample_py.j0 b) (sample_py.jF b) /\
  ii = range (sample_py.i0 b) (sample_py.iF b).
Proof.
  unfold sample_py.subgrid. intros H.
  destruct (take topo _ 0) as [rows|]; cbn [bind] in H; [|discriminate].
  destruct (take rows _ 1) as [a|]; cbn [bind] in H; [|discriminate].
  inversion H. split; reflexivity.
Qed.

Lemma subgrid_raises (topo : ndarray) (b : sample_py.Bounds) (e : exn) :
  sample_py.subgrid topo b = Raise e -> e = IndexError.
Proof.
  unfold sample_py.subgrid, take.
  change (0 =? 0)%Z with true. change (1 =? 0)%Z with false. cbv iota.
  intros H.
  destruct (mapM (getitem topo) _) as [rows|e0] eqn:E0; cbn [bind] in H.
  - destruct (mapM _ rows) as [a|e1] eqn:E1; cbn [bind] in H; [discriminate|].
    inversion H; subst.
    eapply (mapM_raises _ (fun e => e = IndexError)); [|exact E1].
    intros row e0 Hrow. cbv beta in Hrow.
    eapply (mapM_raises _ (fun e => e = IndexError)); [|exact Hrow].
    intros k e2. apply getitem_raises.
  - inversion H; subst.
    eapply (mapM_raises _ (fun e => e = IndexError)); [|exact E0].
    intros k e2. apply getitem_raises.
Qed.

(** Floor and ceiling of one number are at most one apart. *)
Lemma ceiling_floor_gap (x y : Q) :
  x == y -> (Qceiling y - Qfloor x <= 1)%Z.
Proof.
  intros E. pose proof (Qceiling_lt y) as H1. pose proof (Qlt_floor x) as H2.
  assert (H : inject_Z (Qceiling y - 1) < inject_Z (Qfloor x + 1)).
  { lra. }
  rewrite <- Zlt_Qlt in H. lia.
Qed.

Section Degenerate.

Variable float : string -> option Q.
Variable surface : list Z -> list Z -> ndarray -> Q -> Q -> Q.

(** Fewer than four grid rows or columns stop the pipeline at the fit, if
    it gets that far. *)
Lemma main_too_few_samples (text : string) (topo : ndarray) (ppd : Q)
      (q : sample_py.Quad) (f : sample_py.Frac) :
  sample_py.getQuad float text = Ok q ->
  sample_py.to_pixel (fst (shape topo)) (snd (shape topo)) q = Ok f ->
  let b := sample_py.pixel_bounds f in
  (len (range (sample_py.j0 b) (sample_py.jF b)) < 4
   \/ len (range (sample_py.i0 b) (sample_py.iF b)) < 4)%Z ->
  exists e,
    sample_py.main float surface text topo ppd = Raise e /\
    (e = IndexError \/ e = InsufficientSamplesError).
Proof.
  intros Hq Hf b Hfew. unfold sample_py.main. rewrite Hq. cbn [bind].
  rewrite Hf. cbn [bind]. fold b.
  destruct (sample_py.subgrid topo b) as [[[jj ii] alt]|e] eqn:E; cbn [bind].
  - apply subgrid_indices in E. destruct E as [-> ->].
    exists InsufficientSamplesError. split; [|now right].
    unfold sample_py.resample, sample_py.RectBivariateSpline.
    replace ((len (range (sample_py.j0 b) (sample_py.jF b)) <? 4)
             || (len (range (sample_py.i0 b) (sample_py.iF b)) <? 4))%Z
      with true; [reflexivity|].
    symmetry. apply orb_true_iff.
    destruct Hfew; [left | right]; apply Z.ltb_lt; assumption.
  - exists e. split; [reflexivity|]. left. eapply subgrid_raises; eassumption.
Qed.

(** C10 (as the code has it).  When all vertices share one latitude the
    row coordinate sequence is empty, whatever the step, and the grid
    handed to the fit has at most one row; likewise one shared longitude
    gives an empty column sequence and at most one grid column.  In either
    case the pipeline does not return: it raises, at the sub-array
    selection or at the fit, which needs four rows and four columns. *)
Theorem degenerate_quad_raises (text : string) (topo : ndarray) (ppd : Q)
        (q : sample_py.Quad) :
  sample_py.getQuad float text = Ok q ->
  exists f,
    sample_py.to_pixel (fst (shape topo)) (snd (shape topo)) q = Ok f /\
    let b := sample_py.pixel_bounds f in
    (sample_py.latMin q == sample_py.latMax q ->
       (forall step, arange (sample_py.y0 f) (sample_py.yF f) step = []) /\
       (len (range (sample_py.j0 b) (sample_py.jF b)) <= 1)%Z) /\
    (sample_py.lonMin q == sample_py.lonMax q ->
       (forall step, arange (sample_py.x0 f) (sample_py.xF f) step = []) /\
       (len (range (sample_py.i0 b) (sample_py.iF b)) <= 1)%Z) /\
    (sample_py.latMin q == sample_py.latMax q
     \/ sample_py.lonMin q == sample_py.lonMax q ->
       exists e,
         sample_py.main float surface text topo ppd = Raise e /\
         (e = IndexError \/ e = InsufficientSamplesError)).
Proof.
  intros Hq. eexists. split; [apply to_pixel_eq|].
  set (f := sample_py.mkFrac _ _ _ _).
  assert (Hrow : sample_py.latMin q == sample_py.latMax q ->
                 sample_py.y0 f == sample_py.yF f).
  { intros E. cbn. rewrite E. reflexivity. }
  assert (Hcol : sample_py.lonMin q == sample_py.lonMax q ->
                 sample_py.x0 f == sample_py.xF f).
  { intros E. cbn. rewrite E. reflexivity. }
  assert (Hjj : sample_py.latMin q == sample_py.latMax q ->
                (len (range (sample_py.j0 (sample_py.pixel_bounds f))
                            (sample_py.jF (sample_py.pixel_bounds f))) <= 1)%Z).
  { intros E. rewrite range_len.
    pose proof (ceiling_floor_gap _ _ (Hrow E)).
    cbn [sample_py.pixel_bounds sample_py.j0 sample_py.jF]. lia. }
  assert (Hii : sample_py.lonMin q == sample_py.lonMax q ->
                (len (range (sample_py.i0 (sample_py.pixel_bounds f))
                            (sample_py.iF (sample_py.pixel_bounds f))) <= 1)%Z).
  { intros E. rewrite range_len.
    pose proof (ceiling_floor_gap _ _ (Hcol E)).
    cbn [sample_py.pixel_bounds sample_py.i0 sample_py.iF]. lia. }
  cbv zeta. split; [|split].
  - intros E. split; [|now apply Hjj].
    intros step. apply arange_empty. now apply Hrow.
  - intros E. split; [|now apply Hii].
    intros step. apply arange_empty. now apply Hcol.
  - intros E. apply (main_too_few_samples text topo ppd q f Hq (to_pixel_eq _ _ _)).
    destruct E as [E|E]; [left; apply Hjj in E | right; apply Hii in E]; lia.
Qed.

End Degenerate.

(** C10 (as stated).  Three vertices on the latitude 10.5: the quad has
    latMin = latMax, and the pipeline raises instead of returning a raster
    without rows. *)
Lemma single_latitude_raises :
  sample_py.getQuad float_decimal "30,10.5 40,10.5 35,10.5"
    = Ok (sample_py.mkQuad (105 # 10) (105 # 10) 30 40) /\
  sample_py.main float_decimal flat_surface "30,10.5 40,10.5 35,10.5"
                 (zeros 180 360) 1
    = Raise InsufficientSamplesError.
Proof. split; vm_compute; reflexivity. Qed.

Lemma degenerate_quad_raises_witness :
  exists f,
    sample_py.to_pixel (fst (shape (zeros 180 360))) (snd (shape (zeros 180 360)))
                       (sample_py.mkQuad (105 # 10) (105 # 10) 30 40) = Ok f /\
    let q := sample_py.mkQuad (105 # 10) (105 # 10) 30 40 in
    let b := sample_py.pixel_bounds f in
    (sample_py.latMin q == sample_py.latMax q ->
       (forall step, arange (sample_py.y0 f) (sample_py.yF f) step = []) /\
       (len (range (sample_py.j0 b) (sample_py.jF b)) <= 1)%Z) /\
    (sample_py.lonMin q == sample_py.lonMax q ->
       (forall step, arange (sample_py.x0 f) (sample_py.xF f) step = []) /\
       (len (range (sample_py.i0 b) (sample_py.iF b)) <= 1)%Z) /\
    (sample_py.latMin q == sample_py.latMax q
     \/ sample_py.lonMin q == sample_py.lonMax q ->
       exists e,
         sample_py.main float_decimal flat_surface "30,10.5 40,10.5 35,10.5"
                        (zeros 180 360) 1 = Raise e /\
         (e = IndexError \/ e = InsufficientSamplesError)).
Proof.
  apply (degenerate_quad_raises float_decimal flat_surface
           "30,10.5 40,10.5 35,10.5" (zeros 180 360) 1
           (sample_py.mkQuad (105 # 10) (105 # 10) 30 40)).
  vm_compute. reflexivity.
Defined.

(** ** Where rounding decides *)

Section Binary64.

Import PrimFloat.

(** C1.  In binary64, for the raster of 180 x 360 cells, the quad
    (10, 20, 30, 40) and 2 points per degree: the grid rows handed to the
    fit are 70 to 79, the selection accepts them and the fit has its four
    rows and columns, while the sampled rows go up to 79.5: there is an
    evaluation coordinate above the last grid row. *)
Theorem sampled_row_beyond_last_grid_row :
  exists f b yy xx,
    binary64.to_pixel 180 360 (binary64.mkQuad 10 20 30 40)%float = Ok f /\
    binary64.pixel_bounds f = Ok b /\
    binary64.coordinates f 2%float = Ok (yy, xx) /\
    let jj := range (sample_py.j0 b) (sample_py.jF b) in
    let ii := range (sample_py.i0 b) (sample_py.iF b) in
    jj = [70; 71; 72; 73; 74; 75; 76; 77; 78; 79]%Z /\
    is_ok (sample_py.subgrid (zeros 180 360) b) = true /\
    (4 <= len jj)%Z /\ (4 <= len ii)%Z /\
    last yy 0%float = 79.5%float /\
    (binary64.of_Z (last jj 0%Z) <? last yy 0)%float = true.
Proof.
  do 4 eexists.
  split; [vm_compute; reflexivity|].
  split; [vm_compute; reflexivity|].
  split; [vm_compute; reflexivity|].
  cbv zeta. cbn [sample_py.j0 sample_py.jF sample_py.i0 sample_py.iF].
  split; [reflexivity|].
  split; [vm_compute; reflexivity|].
  split; [rewrite range_len; lia|].
  split; [rewrite range_len; lia|].
  split; vm_compute; reflexivity.
Qed.

(** C7.  In binary64, for the raster of shape (180, 360), a boundary
    bounding lat [10, 20] and lon [30, 40] and 1 point per degree: the
    quad is (10, 20, 30, 40) and the rows are bounded by 70 and 80, but
    the eastern bound is computed as 220.00000000000003, above 220, so
    that the column bounds are 210 and 221, the selection takes the
    columns 210 to 220, and the sampled grid has 10 rows and 11
    columns. *)
Theorem scenario_samples_10_by_11 :
  sample_py.getQuad float_decimal "30,10 40,10 40,20 30,20 30,10"
    = Ok (sample_py.mkQuad 10 20 30 40) /\
  exists f b yy xx,
    binary64.to_pixel 180 360 (binary64.mkQuad 10 20 30 40)%float = Ok f /\
    (binary64.y0 f = 70 /\ binary64.yF f = 80 /\ binary64.x0 f = 210 /\
     (220 <? binary64.xF f) = true)%float /\
    binary64.pixel_bounds f = Ok b /\
    b = sample_py.mkBounds 70 80 210 221 /\
    binary64.coordinates f 1%float = Ok (yy, xx) /\
    is_ok (sample_py.subgrid (zeros 180 360) b) = true /\
    (4 <= len (range (sample_py.j0 b) (sample_py.jF b)))%Z /\
    (4 <= len (range (sample_py.i0 b) (sample_py.iF b)))%Z /\
    len yy = 10%Z /\ len xx = 11%Z.
Proof.
  split; [reflexivity|].
  do 4 eexists.
  split; [vm_compute; reflexivity|].
  split; [repeat split; vm_compute; reflexivity|].
  split; [vm_compute; reflexivity|].
  split; [reflexivity|].
  split; [vm_compute; reflexivity|].
  split; [vm_compute; reflexivity|].
  split; [rewrite range_len; cbn; lia|].
  split; [rewrite range_len; cbn; lia|].
  split; vm_compute; reflexivity.
Qed.

End Binary64.

(** * Further properties of the code *)

(** ** The coordinate mapping *)

Lemma row_of_lat (J : Z) (lat : Q) :
  0 + (lat - 90) / (-90 - 90) * (inject_Z J - 0)
  == (90 - lat) * (inject_Z J / 180).
Proof. field. Qed.

Lemma col_of_lon (I : Z) (lon : Q) :
  0 + (lon - -180) / (180 - -180) * (inject_Z I - 0)
  == (lon + 180) * (inject_Z I / 360).
Proof. field. Qed.

Lemma inject_Z_nonneg (z : Z) : (0 <= z)%Z -> 0 <= inject_Z z.
Proof. intros H. change 0 with (inject_Z 0). now rewrite <- Zle_Qle. Qed.

Lemma pixels_per_degree_nonneg (n : Z) (d : Q) :
  (0 <= n)%Z -> 0 < d -> 0 <= inject_Z n / d.
Proof.
  intros Hn Hd. apply Qle_shift_div_l; [exact Hd|].
  apply inject_Z_nonneg in Hn. lra.
Qed.

(** X1.  [interp1] passes through its two points: at [xx[0]] it returns
    [yy[0]] and at [xx[1]] it returns [yy[1]], whenever the two abscissae
    differ; this holds for the copy in sample.py and the one in
    export.py. *)
Theorem interp1_endpoints (a b c d : Q) :
  ~ a == b ->
  exists v0 v1 w0 w1 : Q,
    sample_py.interp1 [a; b] [c; d] a = Ok v0 /\ v0 == c /\
    sample_py.interp1 [a; b] [c; d] b = Ok v1 /\ v1 == d /\
    export_py.interp1 [a; b] [c; d] a = Ok w0 /\ w0 == c /\
    export_py.interp1 [a; b] [c; d] b = Ok w1 /\ w1 == d.
Proof.
  intros Hab.
  assert (Hne : ~ b - a == 0) by (intro E; apply Hab; lra).
  do 4 eexists.
  split; [now apply sample_interp1_pair|]. split; [field; exact Hne|].
  split; [now apply sample_interp1_pair|]. split; [field; exact Hne|].
  split; [now apply export_interp1_pair|]. split; [field; exact Hne|].
  split; [now apply export_interp1_pair|]. field; exact Hne.
Qed.

Lemma interp1_endpoints_witness :
  exists v0 v1 w0 w1 : Q,
    sample_py.interp1 [90; -90] [0; 180] 90 = Ok v0 /\ v0 == 0 /\
    sample_py.interp1 [90; -90] [0; 180] (-90) = Ok v1 /\ v1 == 180 /\
    export_py.interp1 [90; -90] [0; 180] 90 = Ok w0 /\ w0 == 0 /\
    export_py.interp1 [90; -90] [0; 180] (-90) = Ok w1 /\ w1 == 180.
Proof. apply (interp1_endpoints 90 (-90) 0 180). discriminate. Defined.

(** X2.  Rows grow southwards and columns eastwards: for a raster with
    [J >= 0] rows and [I >= 0] columns, a quad with [latMin <= latMax] and
    [lonMin <= lonMax] has [y0 <= yF] and [x0 <= xF], hence [j0 <= jF] and
    [i0 <= iF]. *)
Theorem pixel_bounds_ordered (J I : Z) (q : sample_py.Quad) :
  (0 <= J)%Z -> (0 <= I)%Z ->
  sample_py.latMin q <= sample_py.latMax q ->
  sample_py.lonMin q <= sample_py.lonMax q ->
  exists f,
    sample_py.to_pixel J I q = Ok f /\
    sample_py.y0 f <= sample_py.yF f /\
    sample_py.x0 f <= sample_py.xF f /\
    (sample_py.j0 (sample_py.pixel_bounds f)
     <= sample_py.jF (sample_py.pixel_bounds f))%Z /\
    (sample_py.i0 (sample_py.pixel_bounds f)
     <= sample_py.iF (sample_py.pixel_bounds f))%Z.
Proof.
  intros HJ HI Hlat Hlon. eexists. split; [apply to_pixel_eq|].
  cbn [sample_py.y0 sample_py.yF sample_py.x0 sample_py.xF
       sample_py.pixel_bounds sample_py.j0 sample_py.jF sample_py.i0 sample_py.iF].
  assert (Hy : 0 + (sample_py.latMax q - 90) / (-90 - 90) * (inject_Z J - 0)
               <= 0 + (sample_py.latMin q - 90) / (-90 - 90) * (inject_Z J - 0)).
  { rewrite !row_of_lat. apply Qmult_le_compat_r; [lra|].
    apply pixels_per_degree_nonneg; [exact HJ | reflexivity]. }
  assert (Hx : 0 + (sample_py.lonMin q - -180) / (180 - -180) * (inject_Z I - 0)
               <= 0 + (sample_py.lonMax q - -180) / (180 - -180) * (inject_Z I - 0)).
  { rewrite !col_of_lon. apply Qmult_le_compat_r; [lra|].
    apply pixels_per_degree_nonneg; [exact HI | reflexivity]. }
  split; [exact Hy|]. split; [exact Hx|]. split.
  - apply Z.le_trans with (Qceiling (0 + (sample_py.latMax q - 90) / (-90 - 90)
                                       * (inject_Z J - 0))).
    + rewrite Zle_Qle. apply Qle_floor_ceiling.
    + now apply Qceiling_resp_le.
  - apply Z.le_trans with (Qceiling (0 + (sample_py.lonMin q - -180) / (180 - -180)
                                       * (inject_Z I - 0))).
    + rewrite Zle_Qle. apply Qle_floor_ceiling.
    + now apply Qceiling_resp_le.
Qed.

Lemma pixel_bounds_ordered_witness :
  exists f,
    sample_py.to_pixel 180 360 (sample_py.mkQuad 10 20 30 40) = Ok f /\
    sample_py.y0 f <= sample_py.yF f /\
    sample_py.x0 f <= sample_py.xF f /\
    (sample_py.j0 (sample_py.pixel_bounds f)
     <= sample_py.jF (sample_py.pixel_bounds f))%Z /\
    (sample_py.i0 (sample_py.pixel_bounds f)
     <= sample_py.iF (sample_py.pixel_bounds f))%Z.
Proof.
  apply (pixel_bounds_ordered 180 360 (sample_py.mkQuad 10 20 30 40));
    vm_compute; discriminate.
Defined.

(** Inside the extent the fractional bounds lie between 0 and the size of
    the axis, and so do their floor and ceiling. *)
Lemma in_extent_bounds (J I : Z) (q : sample_py.Quad) (f : sample_py.Frac) :
  (0 <= J)%Z -> (0 <= I)%Z ->
  sample_py.to_pixel J I q = Ok f ->
  -90 <= sample_py.latMin q -> sample_py.latMax q <= 90 ->
  -180 <= sample_py.lonMin q -> sample_py.lonMax q <= 180 ->
  let b := sample_py.pixel_bounds f in
  (0 <= sample_py.j0 b)%Z /\ (sample_py.jF b <= J)%Z /\
  (0 <= sample_py.i0 b)%Z /\ (sample_py.iF b <= I)%Z.
Proof.
  intros HJ HI Hf Hlat0 Hlat1 Hlon0 Hlon1.
  rewrite to_pixel_eq in Hf. inversion Hf; subst f. clear Hf.
  set (f := sample_py.mkFrac _ _ _ _). cbv zeta.
  assert (Hy0 : 0 <= sample_py.y0 f).
  { cbn. rewrite row_of_lat.
    apply Qmult_le_0_compat; [lra|].
    apply pixels_per_degree_nonneg; [lia | reflexivity]. }
  assert (HyF : sample_py.yF f <= inject_Z J).
  { cbn. rewrite row_of_lat.
    assert (E : inject_Z J == 180 * (inject_Z J / 180)) by field.
    rewrite E at 2. apply Qmult_le_compat_r; [lra|].
    apply pixels_per_degree_nonneg; [lia | reflexivity]. }
  assert (Hx0 : 0 <= sample_py.x0 f).
  { cbn. rewrite col_of_lon.
    apply Qmult_le_0_compat; [lra|].
    apply pixels_per_degree_nonneg; [lia | reflexivity]. }
  assert (HxF : sample_py.xF f <= inject_Z I).
  { cbn. rewrite col_of_lon.
    assert (E : inject_Z I == 360 * (inject_Z I / 360)) by field.
    rewrite E at 2. apply Qmult_le_compat_r; [lra|].
    apply pixels_per_degree_nonneg; [lia | reflexivity]. }
  split; [apply (Qfloor_resp_le 0 _ Hy0)|].
  split; [rewrite <- (Qceiling_Z J); now apply Qceiling_resp_le|].
  split; [apply (Qfloor_resp_le 0 _ Hx0)|].
  rewrite <- (Qceiling_Z I). now apply Qceiling_resp_le.
Qed.

Lemma has_shape_columns (J I : Z) (topo : ndarray) :
  has_shape J I topo -> (0 < J)%Z -> (0 <= I)%Z.
Proof.
  intros [Hlen Hrows] HJ. destruct topo as [|row rest].
  - cbn in Hlen. lia.
  - inversion Hrows; subst. unfold len. lia.
Qed.

(** X3.  A quad inside the extent of the raster (latitudes in [-90, 90],
    longitudes in [-180, 180]) has all its pixel bounds inside the array,
    [0 <= j0], [jF <= J], [0 <= i0], [iF <= I], and the selection of the
    sub-array does not raise. *)
Theorem quad_in_extent_selects (topo : ndarray) (J I : Z) (q : sample_py.Quad) :
  has_shape J I topo -> (0 < J)%Z ->
  -90 <= sample_py.latMin q -> sample_py.latMax q <= 90 ->
  -180 <= sample_py.lonMin q -> sample_py.lonMax q <= 180 ->
  exists f,
    sample_py.to_pixel J I q = Ok f /\
    let b := sample_py.pixel_bounds f in
    (0 <= sample_py.j0 b)%Z /\ (sample_py.jF b <= J)%Z /\
    (0 <= sample_py.i0 b)%Z /\ (sample_py.iF b <= I)%Z /\
    is_ok (sample_py.subgrid topo b) = true.
Proof.
  intros Hshape HJ Hlat0 Hlat1 Hlon0 Hlon1.
  pose proof (has_shape_columns J I topo Hshape HJ) as HI.
  eexists. split; [apply to_pixel_eq|].
  set (f := sample_py.mkFrac _ _ _ _). cbv zeta.
  destruct (in_extent_bounds J I q f) as (Hj0 & HjF & Hi0 & HiF);
    try assumption; [lia | apply to_pixel_eq |].
  repeat (split; [assumption|]).
  destruct (subgrid_ok topo J I (sample_py.pixel_bounds f) Hshape)
    as (alt & -> & _); [lia | lia | reflexivity].
Qed.

Lemma quad_in_extent_selects_witness :
  exists f,
    sample_py.to_pixel 180 360 (sample_py.mkQuad (-90) 90 (-180) 180) = Ok f /\
    let b := sample_py.pixel_bounds f in
    (0 <= sample_py.j0 b)%Z /\ (sample_py.jF b <= 180)%Z /\
    (0 <= sample_py.i0 b)%Z /\ (sample_py.iF b <= 360)%Z /\
    is_ok (sample_py.subgrid (zeros 180 360) b) = true.
Proof.
  apply (quad_in_extent_selects (zeros 180 360) 180 360
           (sample_py.mkQuad (-90) 90 (-180) 180)).
  - exact subgrid_witness_shape.
  - reflexivity.
  - vm_compute; discriminate.
  - vm_compute; discriminate.
  - vm_compute; discriminate.
  - vm_compute; discriminate.
Defined.

(** ** The selected sub-array *)

Lemma mapM_nth {A B} (f : A -> result B) (l : list A) (bs : list B) :
  mapM f l = Ok bs ->
  forall n a, nth_error l n = Some a ->
              exists b, f a = Ok b /\ nth_error bs n = Some b.
Proof.
  revert bs. induction l as [|x l IH]; intros bs H n a Hn; cbn [mapM] in H.
  - destruct n; discriminate.
  - destruct (f x) as [b0|] eqn:Ex; cbn [bind] in H; [|discriminate].
    destruct (mapM f l) as [bs'|]; cbn [bind] in H; [|discriminate].
    inversion H; subst. destruct n as [|n]; cbn in Hn |- *.
    + inversion Hn; subst. now exists b0.
    + now apply (IH bs' eq_refl n a).
Qed.

Lemma mapM_ext_in {A B} (f g : A -> result B) (l : list A) :
  (forall a, In a l -> f a = g a) -> mapM f l = mapM g l.
Proof.
  induction l as [|x l IH]; intros H; [reflexivity|].
  cbn [mapM]. rewrite (H x (or_introl eq_refl)).
  rewrite IH; [reflexivity|]. intros a Ha. apply H. now right.
Qed.

Lemma mapM_map {A B C} (f : B -> result C) (g : A -> B) (l : list A) :
  mapM f (map g l) = mapM (fun a => f (g a)) l.
Proof.
  induction l as [|x l IH]; [reflexivity|]. cbn [map mapM]. now rewrite IH.
Qed.

Lemma range_from_shift (n : nat) (a d : Z) :
  range_from (a - d) n = map (fun k => k - d)%Z (range_from a n).
Proof.
  revert a. induction n as [|n IH]; intro a; [reflexivity|].
  cbn [range_from map]. f_equal.
  replace (a - d + 1)%Z with (a + 1 - d)%Z by lia. apply IH.
Qed.

Lemma range_shift (a b d : Z) :
  range (a - d) (b - d) = map (fun k => k - d)%Z (range a b).
Proof.
  unfold range. replace (b - d - (a - d))%Z with (b - a)%Z by lia.
  apply range_from_shift.
Qed.

(** An index and the same index counted from the end name one element. *)
Lemma getitem_from_end {A} (l : list A) (k : Z) :
  (0 <= k < len l)%Z -> getitem l (k - len l) = getitem l k.
Proof.
  intros Hk. unfold getitem.
  replace ((- len l <=? k - len l) && (k - len l <? len l))%Z with true
    by (symmetry; apply andb_true_iff; split; [apply Z.leb_le | apply Z.ltb_lt]; lia).
  replace ((- len l <=? k) && (k <? len l))%Z with true
    by (symmetry; apply andb_true_iff; split; [apply Z.leb_le | apply Z.ltb_lt]; lia).
  replace (k - len l <? 0)%Z with true by (symmetry; apply Z.ltb_lt; lia).
  replace (k <? 0)%Z with false by (symmetry; apply Z.ltb_ge; lia).
  now replace (k - len l + len l)%Z with k by lia.
Qed.

(** X7.  Every entry of the selected sub-array is the raster sample at the
    row and column index of its position: [alt[a][c] = topo[jj[a]][ii[c]]]
    for every position [a] of [jj] and [c] of [ii]. *)
Theorem subgrid_entries (topo : ndarray) (b : sample_py.Bounds)
        (jj ii : list Z) (alt : ndarray) (a c : nat) (j i : Z) :
  sample_py.subgrid topo b = Ok (jj, ii, alt) ->
  nth_error jj a = Some j -> nth_error ii c = Some i ->
  exists (topo_row alt_row : list Q) (v : Q),
    getitem topo j = Ok topo_row /\ getitem topo_row i = Ok v /\
    nth_error alt a = Some alt_row /\ nth_error alt_row c = Some v.
Proof.
  unfold sample_py.subgrid, take.
  change (0 =? 0)%Z with true. change (1 =? 0)%Z with false. cbv iota.
  intros H Hj Hi.
  destruct (mapM (getitem topo) _) as [rows|] eqn:E0; cbn [bind] in H;
    [|discriminate].
  destruct (mapM _ rows) as [alt'|] eqn:E1; cbn [bind] in H; [|discriminate].
  inversion H; subst. clear H.
  destruct (mapM_nth _ _ _ E0 a j Hj) as (topo_row & Hrow & Hnth).
  destruct (mapM_nth _ _ _ E1 a topo_row Hnth) as (alt_row & Hsel & Hnth').
  cbv beta in Hsel.
  destruct (mapM_nth _ _ _ Hsel c i Hi) as (v & Hv & Hnth'').
  now exists topo_row, alt_row, v.
Qed.

Lemma subgrid_entries_witness :
  exists (topo_row alt_row : list Q) (v : Q),
    getitem [[1; 2; 3]; [4; 5; 6]; [7; 8; 9]] 2 = Ok topo_row /\
    getitem topo_row 1 = Ok v /\
    nth_error [[5; 6]; [8; 9]] 1 = Some alt_row /\
    nth_error alt_row 0 = Some v.
Proof.
  apply (subgrid_entries [[1; 2; 3]; [4; 5; 6]; [7; 8; 9]]
           (sample_py.mkBounds 1 3 1 3) [1; 2]%Z [1; 2]%Z [[5; 6]; [8; 9]]
           1%nat 0%nat 2%Z 1%Z); reflexivity.
Defined.

(** X8.  Indices counted from the end select the same samples: for
    integer bounds inside the array ([0 <= j0], [jF <= J], [0 <= i0],
    [iF <= I]), the bounds [j0 - J], [jF - J], [i0 - I], [iF - I] raise
    nothing and give the very sub-array of the bounds [j0], [jF], [i0],
    [iF]. *)
Theorem subgrid_from_end (topo : ndarray) (J I : Z) (b : sample_py.Bounds) :
  has_shape J I topo ->
  (0 <= sample_py.j0 b)%Z -> (sample_py.jF b <= J)%Z ->
  (0 <= sample_py.i0 b)%Z -> (sample_py.iF b <= I)%Z ->
  exists alt,
    sample_py.subgrid topo b
    = Ok (range (sample_py.j0 b) (sample_py.jF b),
          range (sample_py.i0 b) (sample_py.iF b), alt) /\
    sample_py.subgrid topo
      (sample_py.mkBounds (sample_py.j0 b - J) (sample_py.jF b - J)
                          (sample_py.i0 b - I) (sample_py.iF b - I))
    = Ok (range (sample_py.j0 b - J) (sample_py.jF b - J),
          range (sample_py.i0 b - I) (sample_py.iF b - I), alt).
Proof.
  intros Hshape Hj0 HjF Hi0 HiF.
  destruct (subgrid_ok topo J I b Hshape) as (alt & Hsub & _); [lia | lia |].
  exists alt. split; [exact Hsub|].
  destruct Hshape as [HJ HI]. rewrite Forall_forall in HI.
  revert Hsub. unfold sample_py.subgrid, take.
  change (0 =? 0)%Z with true. change (1 =? 0)%Z with false. cbv iota.
  cbn [sample_py.j0 sample_py.jF sample_py.i0 sample_py.iF].
  rewrite !range_shift, mapM_map.
  rewrite (mapM_ext_in (fun k => getitem topo (k - J)) (getitem topo)).
  2:{ intros k Hk. apply range_In in Hk. rewrite <- HJ.
      apply getitem_from_end. lia. }
  destruct (mapM (getitem topo) _) as [rows|] eqn:E0; cbn [bind];
    [|discriminate].
  rewrite (mapM_ext_in
             (fun row => mapM (getitem row)
                           (map (fun k => (k - I)%Z)
                                (range (sample_py.i0 b) (sample_py.iF b))))
             (fun row => mapM (getitem row)
                           (range (sample_py.i0 b) (sample_py.iF b)))).
  2:{ intros row Hrow. rewrite mapM_map. apply mapM_ext_in. intros k Hk.
      apply range_In in Hk.
      destruct (mapM_elements _ _ _ E0 row Hrow) as (j & _ & Hget).
      assert (Hin : In row topo).
      { unfold getitem in Hget.
        destruct ((- len topo <=? j) && (j <? len topo))%Z; [|discriminate].
        destruct (nth_error topo _) eqn:En; [|discriminate].
        inversion Hget; subst. eapply nth_error_In; eassumption. }
      rewrite <- (HI row Hin). apply getitem_from_end. rewrite (HI row Hin). lia. }
  destruct (mapM _ rows) as [alt'|]; cbn [bind]; [|discriminate].
  intros H. inversion H. reflexivity.
Qed.

Lemma subgrid_from_end_witness :
  exists alt,
    sample_py.subgrid (zeros 180 360) (sample_py.mkBounds 70 80 210 220)
    = Ok (range 70 80, range 210 220, alt) /\
    sample_py.subgrid (zeros 180 360)
      (sample_py.mkBounds (70 - 180) (80 - 180) (210 - 360) (220 - 360))
    = Ok (range (70 - 180) (80 - 180), range (210 - 360) (220 - 360), alt).
Proof.
  apply (subgrid_from_end (zeros 180 360) 180 360
           (sample_py.mkBounds 70 80 210 220)).
  - exact subgrid_witness_shape.
  - vm_compute; discriminate.
  - vm_compute; discriminate.
  - vm_compute; discriminate.
  - vm_compute; discriminate.
Defined.

(** ** The boundary and its vertices *)

Section Vertices.

Variable float : string -> option Q.

(** The loop of [getQuad] collects the vertex of every part, in order. *)
Lemma read_parts_vertices (parts : list string) :
  forall lats lons,
    sample_py.read_parts float parts lats lons
    = (vs <- mapM (vertex_of float) parts ;;
       Ok (lats ++ map fst vs, lons ++ map snd vs)).
Proof.
  induction parts as [|part rest IH]; intros lats lons.
  - cbn. now rewrite !app_nil_r.
  - cbn [sample_py.read_parts mapM]. unfold vertex_of at 1.
    destruct (mapM (sample_py.to_float float) _) as [values|]; cbn [bind];
      [|reflexivity].
    destruct (getitem values 1) as [lat|]; cbn [bind]; [|reflexivity].
    destruct (getitem values 0) as [lon|]; cbn [bind]; [|reflexivity].
    rewrite IH. destruct (mapM (vertex_of float) rest) as [vs|]; cbn [bind];
      [|reflexivity].
    cbn [map fst snd]. now rewrite <- !app_assoc.
Qed.

Lemma mapM_covers {A B} (f : A -> result B) (l : list A) (bs : list B) :
  mapM f l = Ok bs -> forall a, In a l -> exists b, f a = Ok b /\ In b bs.
Proof.
  intros H a Ha. apply In_nth_error in Ha. destruct Ha as (n & Hn).
  destruct (mapM_nth f l bs H n a Hn) as (b & Hb & Hnth).
  exists b. split; [exact Hb|]. eapply nth_error_In; eassumption.
Qed.

Lemma mapM_total {A B} (f : A -> result B) (l : list A) :
  (forall a, In a l -> exists b, f a = Ok b) -> exists bs, mapM f l = Ok bs.
Proof.
  intros H. destruct (mapM f l) as [bs|e] eqn:E; [now exists bs|].
  exfalso. assert (Hok : is_ok (mapM f l) = true).
  { rewrite mapM_is_ok. apply forallb_forall. intros a Ha.
    destruct (H a Ha) as (b & ->). reflexivity. }
  rewrite E in Hok. discriminate.
Qed.

(** The vertices of two boundaries with the same parts. *)
Lemma same_parts_same_vertices (parts1 parts2 : list string)
      (vs1 : list (Q * Q)) :
  (forall p, In p parts2 -> In p parts1) ->
  mapM (vertex_of float) parts1 = Ok vs1 ->
  exists vs2,
    mapM (vertex_of float) parts2 = Ok vs2 /\
    (forall v, In v vs2 -> In v vs1).
Proof.
  intros Hsub H1.
  destruct (mapM_total (vertex_of float) parts2) as (vs2 & H2).
  { intros p Hp. destruct (mapM_covers _ _ _ H1 p (Hsub p Hp)) as (v & Hv & _).
    now exists v. }
  exists vs2. split; [exact H2|]. intros v Hv.
  destruct (mapM_elements _ _ _ H2 v Hv) as (p & Hp & Hpv).
  destruct (mapM_covers _ _ _ H1 p (Hsub p Hp)) as (v' & Hv' & Hin).
  congruence.
Qed.

Lemma getQuad_inv (text : string) (q : sample_py.Quad) :
  sample_py.getQuad float text = Ok q ->
  exists vs,
    mapM (vertex_of float) (split_ws text) = Ok vs /\
    split_ws text <> [] /\
    sample_py.read_parts float (split_ws text) [] []
    = Ok (map fst vs, map snd vs).
Proof.
  unfold sample_py.getQuad. intros H.
  rewrite read_parts_vertices in H |- *.
  destruct (mapM (vertex_of float) (split_ws text)) as [vs|] eqn:E;
    cbn [bind] in H |- *; [|discriminate].
  exists vs. split; [reflexivity|]. split; [|reflexivity].
  intros Hnil. rewrite Hnil in E. cbn in E. inversion E; subst vs.
  cbn in H. discriminate.
Qed.

(** X9.  Only the set of vertices counts: two boundaries with the same
    parts, in any order and with any repetition (such as the closing
    vertex of a ring), are both accepted or both refused, and when
    accepted they have the same quad. *)
Theorem getQuad_same_vertices (text1 text2 : string) (q1 : sample_py.Quad) :
  (forall p, In p (split_ws text1) <-> In p (split_ws text2)) ->
  sample_py.getQuad float text1 = Ok q1 ->
  exists q2, sample_py.getQuad float text2 = Ok q2 /\ Quad_eq q1 q2.
Proof.
  intros Hsame H1.
  destruct (getQuad_inv text1 q1 H1) as (vs1 & Hv1 & Hne1 & Hr1).
  destruct (same_parts_same_vertices _ (split_ws text2) vs1
              (fun p Hp => proj2 (Hsame p) Hp) Hv1) as (vs2 & Hv2 & H21).
  destruct (same_parts_same_vertices _ (split_ws text1) vs2
              (fun p Hp => proj1 (Hsame p) Hp) Hv2) as (vs1' & Hv1' & H12).
  assert (vs1' = vs1) by congruence. subst vs1'.
  assert (Hne2 : split_ws text2 <> []).
  { destruct (split_ws text1) as [|p ps] eqn:E; [congruence|].
    intros Hnil. pose proof (proj1 (Hsame p) (or_introl eq_refl)) as Hin.
    rewrite Hnil in Hin. contradiction. }
  assert (Hr2 : sample_py.read_parts float (split_ws text2) [] []
                = Ok (map fst vs2, map snd vs2)).
  { rewrite read_parts_vertices, Hv2. reflexivity. }
  destruct (getQuad_extrema float text1 _ _ Hr1 Hne1)
    as (q1' & Hq1' & (Ha & Ha') & (Hb & Hb') & (Hc & Hc') & (Hd & Hd')).
  assert (q1' = q1) by congruence. subst q1'.
  destruct (getQuad_extrema float text2 _ _ Hr2 Hne2)
    as (q2 & Hq2 & (Ha2 & Ha2') & (Hb2 & Hb2') & (Hc2 & Hc2') & (Hd2 & Hd2')).
  exists q2. split; [exact Hq2|].
  assert (Hfst : forall x, In x (map fst vs1) <-> In x (map fst vs2)).
  { intros x. rewrite !in_map_iff.
    split; intros (v & <- & Hv); exists v; split; auto. }
  assert (Hsnd : forall x, In x (map snd vs1) <-> In x (map snd vs2)).
  { intros x. rewrite !in_map_iff.
    split; intros (v & <- & Hv); exists v; split; auto. }
  unfold Quad_eq. repeat split; apply Qle_antisym;
    first [ apply Ha', Hfst, Ha2 | apply Ha2', Hfst, Ha
          | apply Hb', Hfst, Hb2 | apply Hb2', Hfst, Hb
          | apply Hc', Hsnd, Hc2 | apply Hc2', Hsnd, Hc
          | apply Hd', Hsnd, Hd2 | apply Hd2', Hsnd, Hd ].
Qed.

End Vertices.

Lemma getQuad_same_vertices_witness :
  exists q2,
    sample_py.getQuad float_decimal "40,20 30,10 30,20 40,10" = Ok q2 /\
    Quad_eq (sample_py.mkQuad 10 20 30 40) q2.
Proof.
  apply (getQuad_same_vertices float_decimal
           "30,10 40,10 40,20 30,20 30,10" "40,20 30,10 30,20 40,10").
  - vm_compute. intros p. split; intros H;
      repeat (destruct H as [<-|H]; [tauto|]); contradiction.
  - reflexivity.
Defined.

(** ** The colour map *)

Lemma export_interp1_zero (a b c d x : Q) :
  b - a == 0 -> export_py.interp1 [a; b] [c; d] x = Raise ZeroDivisionError.
Proof.
  intros E. unfold export_py.interp1, truediv.
  rewrite !getitem_pair_0, !getitem_pair_1. cbn [bind].
  apply Qeq_bool_iff in E. now rewrite E.
Qed.

Lemma defaultColorMap_below (alt lo hi : Q) :
  alt < 0 -> ~ lo == 0 ->
  export_py.defaultColorMap alt [lo; hi]
  = Ok [0 + (alt - lo) / (0 - lo) * (0 - 0);
        0 + (alt - lo) / (0 - lo) * (0 - 0);
        0 + (alt - lo) / (0 - lo) * (1 - 0)].
Proof.
  intros Halt Hlo. unfold export_py.defaultColorMap.
  apply Qltb_lt in Halt. rewrite Halt.
  rewrite !getitem_pair_0. cbn [bind].
  rewrite !export_interp1_pair by (intro E; apply Hlo; lra). reflexivity.
Qed.

Lemma defaultColorMap_above (alt lo hi : Q) :
  0 <= alt -> ~ hi == 0 ->
  export_py.defaultColorMap alt [lo; hi]
  = Ok [0 + (alt - 0) / (hi - 0) * (1 - 0);
        1 + (alt - 0) / (hi - 0) * (1 - 1);
        0 + (alt - 0) / (hi - 0) * (1 - 0)].
Proof.
  intros Halt Hhi. unfold export_py.defaultColorMap.
  apply Qltb_ge in Halt. rewrite Halt.
  rewrite !getitem_pair_1. cbn [bind].
  rewrite !export_interp1_pair by (intro E; apply Hhi; lra). reflexivity.
Qed.

Lemma defaultColorMap_flat_top (alt lo hi : Q) :
  0 <= alt -> hi == 0 ->
  export_py.defaultColorMap alt [lo; hi] = Raise ZeroDivisionError.
Proof.
  intros Halt Hhi. unfold export_py.defaultColorMap.
  apply Qltb_ge in Halt. rewrite Halt.
  rewrite !getitem_pair_1. cbn [bind].
  rewrite export_interp1_zero by lra. reflexivity.
Qed.

(** X11.  The default colours, for a heightmap reaching below and above
    sea level ([min < 0 < max]): an altitude below 0 gets no red, no green
    and the blue [1 - alt/min]; an altitude from 0 on gets the green 1 and
    the red and blue [alt/max].  So the lowest point is black, sea level
    is green and the highest point is white. *)
Theorem defaultColorMap_gradient (alt lo hi : Q) :
  lo < 0 -> 0 < hi ->
  (alt < 0 ->
     is_rgb (export_py.defaultColorMap alt [lo; hi]) 0 0 (1 - alt / lo)) /\
  (0 <= alt ->
     is_rgb (export_py.defaultColorMap alt [lo; hi]) (alt / hi) 1 (alt / hi)) /\
  is_rgb (export_py.defaultColorMap lo [lo; hi]) 0 0 0 /\
  is_rgb (export_py.defaultColorMap 0 [lo; hi]) 0 1 0 /\
  is_rgb (export_py.defaultColorMap hi [lo; hi]) 1 1 1.
Proof.
  intros Hlo Hhi.
  assert (Hlo' : ~ lo == 0) by (intro E; lra).
  assert (Hhi' : ~ hi == 0) by (intro E; lra).
  assert (Hbelow : forall a, a < 0 ->
            is_rgb (export_py.defaultColorMap a [lo; hi]) 0 0 (1 - a / lo)).
  { intros a Ha. rewrite defaultColorMap_below by assumption.
    do 3 eexists. split; [reflexivity|].
    split; [field; exact Hlo'|]. split; field; exact Hlo'. }
  assert (Habove : forall a, 0 <= a ->
            is_rgb (export_py.defaultColorMap a [lo; hi]) (a / hi) 1 (a / hi)).
  { intros a Ha. rewrite defaultColorMap_above by assumption.
    do 3 eexists. split; [reflexivity|].
    split; [field; exact Hhi'|]. split; field; exact Hhi'. }
  split; [apply Hbelow|]. split; [apply Habove|].
  split; [|split].
  - destruct (Hbelow lo Hlo) as (r & g & b & E & Hr & Hg & Hb).
    exists r, g, b. repeat split; try assumption.
    rewrite Hb. field. exact Hlo'.
  - destruct (Habove 0) as (r & g & b & E & Hr & Hg & Hb); [lra|].
    exists r, g, b. repeat split; try assumption.
    + rewrite Hr. field. exact Hhi'.
    + rewrite Hb. field. exact Hhi'.
  - destruct (Habove hi) as (r & g & b & E & Hr & Hg & Hb); [lra|].
    exists r, g, b. repeat split; try assumption.
    + rewrite Hr. field. exact Hhi'.
    + rewrite Hb. field. exact Hhi'.
Qed.

Lemma defaultColorMap_gradient_witness :
  (-50 < 0 ->
     is_rgb (export_py.defaultColorMap (-50) [-100; 200]) 0 0 (1 - -50 / -100)) /\
  (0 <= -50 ->
     is_rgb (export_py.defaultColorMap (-50) [-100; 200])
            (-50 / 200) 1 (-50 / 200)) /\
  is_rgb (export_py.defaultColorMap (-100) [-100; 200]) 0 0 0 /\
  is_rgb (export_py.defaultColorMap 0 [-100; 200]) 0 1 0 /\
  is_rgb (export_py.defaultColorMap 200 [-100; 200]) 1 1 1.
Proof. apply (defaultColorMap_gradient (-50) (-100) 200); reflexivity. Defined.

(** X12.  For an altitude inside the range of its heightmap
    ([min <= alt <= max]) the default colour map fails only in one case,
    at an altitude 0 that is also the maximum; then it divides by zero. *)
Theorem defaultColorMap_fails_iff (alt lo hi : Q) :
  lo <= alt -> alt <= hi ->
  ((exists e, export_py.defaultColorMap alt [lo; hi] = Raise e)
   <-> alt == 0 /\ hi == 0) /\
  (forall e, export_py.defaultColorMap alt [lo; hi] = Raise e ->
             e = ZeroDivisionError).
Proof.
  intros Hlo Hhi.
  destruct (Qlt_le_dec alt 0) as [Hneg|Hpos].
  - rewrite defaultColorMap_below by (try assumption; intro E; lra).
    split; [|discriminate]. split.
    + intros (e & He). discriminate.
    + intros (E & _). lra.
  - destruct (Qeq_dec hi 0) as [Hz|Hnz].
    + rewrite defaultColorMap_flat_top by assumption.
      split; [|now inversion 1]. split.
      * intros _. split; [lra | exact Hz].
      * intros _. now exists ZeroDivisionError.
    + rewrite defaultColorMap_above by assumption.
      split; [|discriminate]. split.
      * intros (e & He). discriminate.
      * intros (_ & E). contradiction.
Qed.

Lemma defaultColorMap_fails_iff_witness :
  ((exists e, export_py.defaultColorMap 0 [-100; 0] = Raise e)
   <-> 0 == 0 /\ 0 == 0) /\
  (forall e, export_py.defaultColorMap 0 [-100; 0] = Raise e ->
             e = ZeroDivisionError).
Proof.
  apply (defaultColorMap_fails_iff 0 (-100) 0); vm_compute; discriminate.
Defined.

(** ** File names *)

Open Scope string_scope.

Lemma replace_from_skipped (old new s : string) (k : nat) :
  (String.length s <= k)%nat -> replace_from old new s k = "".
Proof.
  revert k. induction s as [|c s IH]; intros k Hk; [reflexivity|].
  cbn [String.length] in Hk. destruct k as [|k]; [lia|].
  cbn [replace_from]. apply IH. lia.
Qed.

Lemma startswith_self (old rest : string) : startswith old (old ++ rest) = true.
Proof.
  induction old as [|a old IH]; [reflexivity|].
  cbn [append startswith]. now rewrite Ascii.eqb_refl, IH.
Qed.

Lemma occurs_tail (old : string) (c : ascii) (s : string) :
  occurs old (String c s) = false ->
  startswith old (String c s) = false /\ occurs old s = false.
Proof. cbn [occurs]. intros H. now apply orb_false_iff in H. Qed.

(** A text in which [old] does not occur is left as it is. *)
Lemma replace_absent (old new s : string) :
  occurs old s = false -> replace old new s = s.
Proof.
  unfold replace. induction s as [|c s IH]; intros H; [reflexivity|].
  apply occurs_tail in H. destruct H as [Hhere Hrest].
  cbn [replace_from]. rewrite Hhere. f_equal. now apply IH.
Qed.

Section Extension.

(** An extension: a dot and three characters other than the dot. *)
Variables a b c : ascii.
Hypothesis Ha : Ascii.eqb a "." = false.
Hypothesis Hb : Ascii.eqb b "." = false.
Hypothesis Hc : Ascii.eqb c "." = false.

Local Abbreviation ext := (String "." (String a (String b (String c "")))).

(** No occurrence of the extension begins inside a text and ends inside
    the extension appended to it. *)
Lemma no_straddle (rest : string) :
  rest <> "" -> startswith ext rest = false ->
  startswith ext (rest ++ ext) = false.
Proof.
  intros Hne H.
  destruct rest as [|c1 r1]; [congruence|].
  cbn [append startswith] in *.
  destruct (Ascii.eqb "." c1); [|reflexivity]. cbn [andb] in *.
  destruct r1 as [|c2 r2]; cbn [append startswith] in *.
  { now rewrite Ha. }
  destruct (Ascii.eqb a c2); [|reflexivity]. cbn [andb] in *.
  destruct r2 as [|c3 r3]; cbn [append startswith] in *.
  { now rewrite Hb. }
  destruct (Ascii.eqb b c3); [|reflexivity]. cbn [andb] in *.
  destruct r3 as [|c4 r4]; cbn [append startswith] in *.
  { now rewrite Hc. }
  exact H.
Qed.

(** A name ending in the extension, and free of it before, has its
    extension swapped. *)
Lemma replace_extension (new stem : string) :
  occurs ext stem = false -> replace ext new (stem ++ ext) = stem ++ new.
Proof.
  unfold replace. induction stem as [|c1 stem IH]; intros H.
  - cbn [append replace_from startswith].
    rewrite Ascii.eqb_refl, !Ascii.eqb_refl. cbn [andb String.length Nat.sub replace_from].
    induction new as [|n new IHn]; [reflexivity | cbn; now rewrite IHn].
  - apply occurs_tail in H. destruct H as [Hhere Hrest].
    cbn [append replace_from].
    change (String c1 (stem ++ ext)) with (String c1 stem ++ ext).
    rewrite no_straddle by (try assumption; discriminate).
    f_equal. now apply IH.
Qed.

End Extension.

(** X15.  Output names.  A .kml name free of ".kml" and ".tif" before its
    extension gives the .tif name with the same stem, that .tif name gives
    the .png name with the same stem, and so the two programs run one
    after the other lead from [stem.kml] to [stem.png]. *)
Theorem output_names (stem : string) :
  occurs ".kml" stem = false -> occurs ".tif" stem = false ->
  sample_py.tifPath (stem ++ ".kml") = stem ++ ".tif" /\
  export_py.pngPath (stem ++ ".tif") = stem ++ ".png" /\
  export_py.pngPath (sample_py.tifPath (stem ++ ".kml")) = stem ++ ".png".
Proof.
  intros Hkml Htif.
  assert (E1 : sample_py.tifPath (stem ++ ".kml") = stem ++ ".tif").
  { unfold sample_py.tifPath.
    apply (replace_extension "k" "m" "l"); [reflexivity.. | exact Hkml]. }
  assert (E2 : export_py.pngPath (stem ++ ".tif") = stem ++ ".png").
  { unfold export_py.pngPath.
    apply (replace_extension "t" "i" "f"); [reflexivity.. | exact Htif]. }
  split; [exact E1|]. split; [exact E2|]. now rewrite E1.
Qed.

Lemma output_names_witness :
  sample_py.tifPath ("example/Untitled Polygon" ++ ".kml")
  = "example/Untitled Polygon" ++ ".tif" /\
  export_py.pngPath ("example/Untitled Polygon" ++ ".tif")
  = "example/Untitled Polygon" ++ ".png" /\
  export_py.pngPath (sample_py.tifPath ("example/Untitled Polygon" ++ ".kml"))
  = "example/Untitled Polygon" ++ ".png".
Proof. apply (output_names "example/Untitled Polygon"); reflexivity. Defined.

(** X16.  A name in which ".kml" does not occur, such as one with the
    extension in capitals, is not changed: the .tif result is written to
    the path of the .kml file itself.  Likewise the .png image is written
    to the path of the .tif file when ".tif" does not occur in it. *)
Theorem output_name_unchanged (path : string) :
  (occurs ".kml" path = false -> sample_py.tifPath path = path) /\
  (occurs ".tif" path = false -> export_py.pngPath path = path).
Proof.
  split; intros H; [unfold sample_py.tifPath | unfold export_py.pngPath];
    now apply replace_absent.
Qed.

Close Scope string_scope.
